(** * Grades: a shallow embedding of [_GRADES_.py]

    The program keeps courses, each split into weighted grading sections
    that hold recorded grades, and computes section averages, the current
    and the overall grade of a course and its letter grade.

    Python objects are mutable and the methods print and may raise, so
    every method is a computation in the monad [Py]: it reads and writes
    the state of its receiver ([self]), appends to the printed output and
    ends with a returned value or a raised exception.  Dictionaries keep
    insertion order and are association lists.  Numbers are an interface
    [PyNum] with two instances: IEEE binary64, which is what the program
    computes on, and exact rationals, which say what the rounded numbers
    stand for.  [Section.__str__],
    [Course.display_status] and the menu functions only format and read
    text and are left out. *)

From Stdlib Require Import List String ZArith QArith Floats Bool Lia Lqa.
Import ListNotations.

Set Warnings "-inexact-float,-register-all".

(** ** Numbers *)

(** The operators the program applies to weights and grades. *)
Class PyNum (num : Type) : Type := {
  of_int : Z -> num;            (* an int literal, or an int meeting a float *)
  nadd : num -> num -> num;     (* x + y *)
  nmul : num -> num -> num;     (* x * y *)
  nquot : num -> num -> num;    (* x / y when y is not zero *)
  neqb : num -> num -> bool;    (* x == y *)
  ngeb : num -> num -> bool     (* x >= y *)
}.

(** Exact arithmetic. *)
#[export] Instance Exact : PyNum Q := {
  of_int := inject_Z;
  nadd := Qplus;
  nmul := Qmult;
  nquot := Qdiv;
  neqb := Qeq_bool;
  ngeb := fun x y => Qle_bool y x
}.

(** Python's [float]: binary64, an int converted by rounding to nearest
    even. *)
#[export] Instance Binary64 : PyNum float := {
  of_int := fun z => SF2Prim (binary_normalize prec emax z 0 false);
  nadd := PrimFloat.add;
  nmul := PrimFloat.mul;
  nquot := PrimFloat.div;
  neqb := PrimFloat.eqb;
  ngeb := fun x y => PrimFloat.leb y x
}.

(** ** Effects *)

Inductive exn : Type :=
| KeyError (key : string)
| IndexError
| ZeroDivisionError
| TypeError
| AttributeError
| Untyped.
(* [Untyped] is no Python exception: it ends a run that would store a value
   of another shape than the typed records below can hold. *)

(** What [print] is called with: the message and the values formatted into
    it. *)
Inductive notice (num : Type) : Type :=
| SectionExists (section course : string) (weight : num)
  (* Section '{name}' already exists in {self.name}. Updating its weight to {weight}%. *)
| SectionMissing (section course : string).
  (* Section '{section_name}' does not exist in {self.name}. *)
Arguments SectionExists {num} section course weight.
Arguments SectionMissing {num} section course.

Record outcome (num St A : Type) : Type := Outcome {
  result : exn + A;
  final : St;
  printed : list (notice num)
}.
Arguments Outcome {num St A} result final printed.
Arguments result {num St A} o.
Arguments final {num St A} o.
Arguments printed {num St A} o.

Definition Py (num St A : Type) : Type := St -> outcome num St A.

Section Monad.
Context {num St : Type}.

Definition ret {A} (a : A) : Py num St A :=
  fun s => Outcome (inr a) s [].

Definition raise {A} (e : exn) : Py num St A :=
  fun s => Outcome (inl e) s [].

Definition bind {A B} (m : Py num St A) (k : A -> Py num St B) : Py num St B :=
  fun s =>
    let o := m s in
    match result o with
    | inl e => Outcome (inl e) (final o) (printed o)
    | inr a =>
        let o' := k a (final o) in
        Outcome (result o') (final o') (printed o ++ printed o')
    end.

Definition get : Py num St St :=
  fun s => Outcome (inr s) s [].

Definition put (s' : St) : Py num St unit :=
  fun _ => Outcome (inr tt) s' [].

Definition print (n : notice num) : Py num St unit :=
  fun s => Outcome (inr tt) s [n].

End Monad.

Declare Scope py_scope.
Delimit Scope py_scope with py.
Notation "x <- m ;; k" := (bind m (fun x => k))
  (at level 100, m at next level, right associativity) : py_scope.
Notation "' p <- m ;; k" := (bind m (fun x => match x with p => k end))
  (at level 100, p pattern, m at next level, right associativity) : py_scope.
Notation "m ;; k" := (bind m (fun _ => k))
  (at level 100, right associativity) : py_scope.
Local Open Scope py_scope.

(** A method of one object run from a method of another: [m] runs on the
    part [proj self] and the part's new state is stored back by [inj]. *)
Definition within {num St T A} (proj : St -> T) (inj : T -> St -> St)
  (m : Py num T A) : Py num St A :=
  fun s =>
    let o := m (proj s) in
    Outcome (result o) (inj (final o) s) (printed o).

(** ** Builtins *)

Section Builtins.
Context {num : Type} {N : PyNum num} {St : Type}.

(** [x / y] *)
Definition truediv (x y : num) : Py num St num :=
  if neqb y (of_int 0) then raise ZeroDivisionError else ret (nquot x y).

(** [sum(l)]: the elements added from the left, starting at 0.  (On
    floats CPython 3.12 and later also carries a correction term for the
    rounding errors; the exact sum is the same, and the results on
    binary64 are stated for every way of adding up as well.) *)
Definition py_sum (l : list num) : num :=
  fold_left nadd l (of_int 0).

(** [len(l)] *)
Definition len {A} (l : list A) : Z :=
  Z.of_nat (List.length l).

(** [if l:] on a list *)
Definition truthy {A} (l : list A) : bool :=
  match l with [] => false | _ :: _ => true end.

(** [l[i]]: a negative index counts from the end. *)
Definition list_getitem {A} (l : list A) (i : Z) : Py num St A :=
  let j := if (i <? 0)%Z then (i + len l)%Z else i in
  if ((0 <=? j) && (j <? len l))%Z
  then match nth_error l (Z.to_nat j) with
       | Some a => ret a
       | None => raise IndexError
       end
  else raise IndexError.

End Builtins.

(** [for x in l: acc = body(acc, x)], the loop variables threaded as [acc]. *)
Fixpoint for_each {num St X Acc} (body : Acc -> X -> Py num St Acc)
  (l : list X) (acc : Acc) : Py num St Acc :=
  match l with
  | [] => ret acc
  | x :: l' => acc' <- body acc x ;; for_each body l' acc'
  end.

(** ** Dictionaries

    A [dict] with string keys: the entries in insertion order, every key
    once ([wf]). *)

Module Dict.

Definition t (V : Type) : Type := list (string * V).

Section Ops.
Context {V : Type}.

Definition empty : t V := [].

(** [k in d] *)
Fixpoint contains (k : string) (d : t V) : bool :=
  match d with
  | [] => false
  | (k', _) :: d' => if String.eqb k k' then true else contains k d'
  end.

Fixpoint lookup (k : string) (d : t V) : option V :=
  match d with
  | [] => None
  | (k', v) :: d' => if String.eqb k k' then Some v else lookup k d'
  end.

(** [d[k] = v]: an existing key keeps its place, a new key goes last. *)
Fixpoint setitem (k : string) (v : V) (d : t V) : t V :=
  match d with
  | [] => [(k, v)]
  | (k', v') :: d' =>
      if String.eqb k k' then (k', v) :: d' else (k', v') :: setitem k v d'
  end.

(** [d.keys()], [d.values()], [d.items()] *)
Definition keys (d : t V) : list string := map fst d.
Definition values (d : t V) : list V := map snd d.
Definition items (d : t V) : list (string * V) := d.

(** [d.get(k, default)] *)
Definition get_default (d : t V) (k : string) (default : V) : V :=
  match lookup k d with
  | Some v => v
  | None => default
  end.

Definition wf (d : t V) : Prop := NoDup (keys d).

End Ops.

Section Effects.
Context {num V : Type}.

(** [d[k]] *)
Definition getitem {St} (d : t V) (k : string) : Py num St V :=
  match lookup k d with
  | Some v => ret v
  | None => raise (KeyError k)
  end.

(** [self[k] = v] *)
Definition assign (k : string) (v : V) : Py num (t V) unit :=
  fun d => Outcome (inr tt) (setitem k v d) [].

(** [self[k].m(...)]: the method [m] runs on the object stored under [k],
    which stays where it is in the dictionary. *)
Definition at_key {A} (k : string) (m : Py num V A) : Py num (t V) A :=
  fun d =>
    match lookup k d with
    | None => Outcome (inl (KeyError k)) d []
    | Some v =>
        let o := m v in
        Outcome (result o) (setitem k (final o) d) (printed o)
    end.

(** [for k, v in self.items(): acc = body(k, acc)] where [body k acc] is
    run on the object [v] itself: what it does to [v] shows in the
    dictionary. *)
Fixpoint for_items {Acc} (body : string -> Acc -> Py num V Acc)
  (acc : Acc) (d : t V) : outcome num (t V) Acc :=
  match d with
  | [] => Outcome (inr acc) [] []
  | (k, v) :: d' =>
      let o := body k acc v in
      match result o with
      | inl e => Outcome (inl e) ((k, final o) :: d') (printed o)
      | inr acc' =>
          let o' := for_items body acc' d' in
          Outcome (result o') ((k, final o) :: final o') (printed o ++ printed o')
      end
  end.

(** [for v in self.values(): acc = body(acc)] *)
Definition for_values {Acc} (body : Acc -> Py num V Acc)
  (acc : Acc) : Py num (t V) Acc :=
  for_items (fun _ => body) acc.

End Effects.

End Dict.

(** ** Documents

    What [to_dict] builds and [from_dict] reads, and what the data file
    holds. *)

Inductive value (num : Type) : Type :=
| VNum (x : num)
| VStr (s : string)
| VList (l : list (value num))
| VDict (d : list (string * value num)).
Arguments VNum {num} x.
Arguments VStr {num} s.
Arguments VList {num} l.
Arguments VDict {num} d.

Module Value.
Section Access.
Context {num St : Type}.

(** [data[k]] with a string [k] *)
Definition subscript (data : value num) (k : string) : Py num St (value num) :=
  match data with
  | VDict d => Dict.getitem d k
  | _ => raise TypeError
  end.

(** [data.get(k, default)] *)
Definition get_default (data : value num) (k : string) (default : value num)
  : Py num St (value num) :=
  match data with
  | VDict d => ret (Dict.get_default d k default)
  | _ => raise AttributeError
  end.

(** [data.items()] *)
Definition items (data : value num) : Py num St (list (string * value num)) :=
  match data with
  | VDict d => ret (Dict.items d)
  | _ => raise AttributeError
  end.

(** Python stores whatever a record holds.  The typed [Section_.t] and
    [Course.t] hold a string, a number and a list of numbers: a field of
    another shape ends the run with [Untyped]. *)
Definition typed {A} (x : option A) : Py num St A :=
  match x with
  | Some a => ret a
  | None => raise Untyped
  end.

Definition str_of (v : value num) : option string :=
  match v with
  | VStr s => Some s
  | _ => None
  end.

Definition num_of (v : value num) : option num :=
  match v with
  | VNum x => Some x
  | _ => None
  end.

Fixpoint all_nums (l : list (value num)) : option (list num) :=
  match l with
  | [] => Some []
  | v :: l' =>
      match num_of v, all_nums l' with
      | Some x, Some xs => Some (x :: xs)
      | _, _ => None
      end
  end.

Definition nums_of (v : value num) : option (list num) :=
  match v with
  | VList l => all_nums l
  | _ => None
  end.

End Access.
End Value.

(** ** class Section *)

Module Section_.

Record t (num : Type) : Type := mk {
  name : string;
  weight : num;
  grades : list num
}.
Arguments mk {num} name weight grades.
Arguments name {num} self : rename.
Arguments weight {num} self : rename.
Arguments grades {num} self : rename.

Section Methods.
Context {num : Type} {N : PyNum num}.

(** [Section(name, weight, grades=None)] *)
Definition init (name : string) (weight : num) (grades : option (list num))
  : t num :=
  mk name weight (match grades with Some g => g | None => [] end).

(** [self.weight = weight] *)
Definition set_weight (w : num) : Py num (t num) unit :=
  self <- get ;; put (mk (name self) w (grades self)).

Definition add_grade (grade : num) : Py num (t num) unit :=
  self <- get ;; put (mk (name self) (weight self) (grades self ++ [grade])).

Definition average : Py num (t num) num :=
  self <- get ;;
  if truthy (grades self)
  then truediv (py_sum (grades self)) (of_int (len (grades self)))
  else ret (of_int 0).

Definition to_dict : Py num (t num) (value num) :=
  self <- get ;;
  ret (VDict [("name", VStr (name self));
              ("weight", VNum (weight self));
              ("grades", VList (map VNum (grades self)))])%string.

Definition from_dict {St} (data : value num) : Py num St (t num) :=
  name <- Value.subscript data "name" ;;
  weight <- Value.subscript data "weight" ;;
  grades <- Value.get_default data "grades" (VList []) ;;
  name <- Value.typed (Value.str_of name) ;;
  weight <- Value.typed (Value.num_of weight) ;;
  grades <- Value.typed (Value.nums_of grades) ;;
  ret (init name weight (Some grades)).

End Methods.
End Section_.

(** ** class Course *)

Module Course.

Record t (num : Type) : Type := mk {
  name : string;
  sections : Dict.t (Section_.t num)
}.
Arguments mk {num} name sections.
Arguments name {num} self : rename.
Arguments sections {num} self : rename.

Section Methods.
Context {num : Type} {N : PyNum num}.

(** [Course(name, sections=None)] *)
Definition init (name : string) (sections : option (Dict.t (Section_.t num)))
  : t num :=
  mk name (match sections with Some d => d | None => Dict.empty end).

(** A method of [self.sections] *)
Definition on_sections {A} (m : Py num (Dict.t (Section_.t num)) A)
  : Py num (t num) A :=
  within sections (fun d self => mk (name self) d) m.

Definition add_section (name : string) (weight : num) : Py num (t num) unit :=
  self <- get ;;
  if Dict.contains name (sections self)
  then print (SectionExists name (Course.name self) weight) ;;
       on_sections (Dict.at_key name (Section_.set_weight weight))
  else on_sections (Dict.assign name (Section_.init name weight None)).

Definition add_assignment_grade (section_name : string) (grade : num)
  : Py num (t num) unit :=
  self <- get ;;
  if Dict.contains section_name (sections self)
  then on_sections (Dict.at_key section_name (Section_.add_grade grade))
  else print (SectionMissing section_name (Course.name self)).

Definition update_section_weight (section_name : string) (new_weight : num)
  : Py num (t num) unit :=
  self <- get ;;
  if Dict.contains section_name (sections self)
  then on_sections (Dict.at_key section_name (Section_.set_weight new_weight))
  else print (SectionMissing section_name (Course.name self)).

Definition calculate_overall_grade : Py num (t num) num :=
  on_sections
    (Dict.for_values
       (fun overall =>
          avg <- Section_.average ;;
          section <- get ;;
          share <- truediv (Section_.weight section) (of_int 100) ;;
          ret (nadd overall (nmul avg share)))
       (of_int 0)).

Definition calculate_current_grade : Py num (t num) (option num) :=
  ' (total_weight, total_score) <-
    on_sections
      (Dict.for_values
         (fun '(total_weight, total_score) =>
            section <- get ;;
            if truthy (Section_.grades section)
            then avg <- Section_.average ;;
                 section <- get ;;
                 let total_score :=
                   nadd total_score (nmul avg (Section_.weight section)) in
                 let total_weight :=
                   nadd total_weight (Section_.weight section) in
                 ret (total_weight, total_score)
            else ret (total_weight, total_score))
         (of_int 0, of_int 0)) ;;
  if neqb total_weight (of_int 0)
  then ret None
  else grade <- truediv total_score total_weight ;; ret (Some grade).

Definition determine_letter_grade (numeric_grade : num)
  : Py num (t num) string :=
  if ngeb numeric_grade (of_int 90) then ret "A"%string
  else if ngeb numeric_grade (of_int 80) then ret "B"%string
  else if ngeb numeric_grade (of_int 70) then ret "C"%string
  else if ngeb numeric_grade (of_int 60) then ret "D"%string
  else ret "F"%string.

Definition to_dict : Py num (t num) (value num) :=
  self <- get ;;
  sections <-
    on_sections
      (Dict.for_items
         (fun name acc =>
            section <- Section_.to_dict ;; ret (Dict.setitem name section acc))
         Dict.empty) ;;
  ret (VDict [("name", VStr (name self)); ("sections", VDict sections)])%string.

Definition from_dict {St} (data : value num) : Py num St (t num) :=
  sections_data <- Value.get_default data "sections" (VDict []) ;;
  entries <- Value.items sections_data ;;
  sections <-
    for_each
      (fun acc '(name, sdata) =>
         section <- Section_.from_dict sdata ;;
         ret (Dict.setitem name section acc))
      entries Dict.empty ;;
  name <- Value.subscript data "name" ;;
  name <- Value.typed (Value.str_of name) ;;
  ret (init name (Some sections)).

End Methods.
End Course.

(** ** class CourseManager

    The manager is the only reader and writer of [DATA_FILE], whose content
    is kept next to it: the document the file holds, or [None] while there
    is no file. *)

Module CourseManager.

Record t (num : Type) : Type := mk {
  courses : Dict.t (Course.t num);
  data_file : option (value num)
}.
Arguments mk {num} courses data_file.
Arguments courses {num} self : rename.
Arguments data_file {num} self : rename.

Section Methods.
Context {num : Type} {N : PyNum num}.

(** A method of [self.courses] *)
Definition on_courses {A} (m : Py num (Dict.t (Course.t num)) A)
  : Py num (t num) A :=
  within courses (fun d self => mk d (data_file self)) m.

Definition save_data : Py num (t num) unit :=
  data <-
    on_courses
      (Dict.for_items
         (fun name acc =>
            course <- Course.to_dict ;; ret (Dict.setitem name course acc))
         Dict.empty) ;;
  self <- get ;;
  put (mk (courses self) (Some (VDict data))).

Definition load_data : Py num (t num) unit :=
  self <- get ;;
  match data_file self with
  | Some data =>
      entries <- Value.items data ;;
      for_each
        (fun _ '(name, course_data) =>
           course <- Course.from_dict course_data ;;
           on_courses (Dict.assign name course))
        entries tt
  | None => put (mk Dict.empty None)
  end.

(** [CourseManager()] where the data file holds [file] *)
Definition init (file : option (value num)) : outcome num (t num) unit :=
  load_data (mk Dict.empty file).

Definition add_course (course : Course.t num) : Py num (t num) unit :=
  on_courses (Dict.assign (Course.name course) course) ;;
  save_data.

Definition get_course_by_index (index : Z)
  : Py num (t num) (option (Course.t num)) :=
  self <- get ;;
  let courses := Dict.values (courses self) in
  if ((0 <=? index) && (index <? len courses))%Z
  then course <- list_getitem courses index ;; ret (Some course)
  else ret None.

Definition list_courses : Py num (t num) (list string) :=
  self <- get ;; ret (Dict.keys (courses self)).

End Methods.
End CourseManager.

(** * Properties *)

(** ** Dictionaries *)

Section DictFacts.
Context {V : Type}.
Implicit Types (d : Dict.t V) (k : string) (v : V).

Lemma contains_lookup k d :
  Dict.contains k d = match Dict.lookup k d with Some _ => true | None => false end.
Proof.
  induction d as [|[k' v'] d IH]; simpl; [reflexivity|].
  destruct (String.eqb k k'); [reflexivity | exact IH].
Qed.

Lemma lookup_setitem_same k v d : Dict.lookup k (Dict.setitem k v d) = Some v.
Proof.
  induction d as [|[k' v'] d IH]; simpl.
  - now rewrite String.eqb_refl.
  - destruct (String.eqb k k') eqn:E; simpl; rewrite E; [reflexivity | exact IH].
Qed.

Lemma lookup_setitem_other k k' v d :
  k <> k' -> Dict.lookup k' (Dict.setitem k v d) = Dict.lookup k' d.
Proof.
  intros Hne. induction d as [|[k0 v0] d IH]; simpl.
  - destruct (String.eqb k' k) eqn:E; [|reflexivity].
    apply String.eqb_eq in E. congruence.
  - destruct (String.eqb k k0) eqn:E; simpl.
    + apply String.eqb_eq in E. subst k0.
      destruct (String.eqb k' k) eqn:E'; [|reflexivity].
      apply String.eqb_eq in E'. congruence.
    + now rewrite IH.
Qed.

Lemma keys_setitem_present k v v' d :
  Dict.lookup k d = Some v' -> Dict.keys (Dict.setitem k v d) = Dict.keys d.
Proof.
  induction d as [|[k0 v0] d IH]; simpl; [discriminate|].
  destruct (String.eqb k k0); [reflexivity|].
  intros H. unfold Dict.keys in *. simpl. now rewrite IH.
Qed.

Lemma setitem_absent k v d :
  Dict.lookup k d = None -> Dict.setitem k v d = d ++ [(k, v)].
Proof.
  induction d as [|[k0 v0] d IH]; simpl; [reflexivity|].
  destruct (String.eqb k k0); [discriminate|].
  intros H. now rewrite IH.
Qed.

Lemma setitem_lookup_id k v d :
  Dict.lookup k d = Some v -> Dict.setitem k v d = d.
Proof.
  induction d as [|[k0 v0] d IH]; simpl; [discriminate|].
  destruct (String.eqb k k0).
  - now intros [= ->].
  - intros H. now rewrite IH.
Qed.

Lemma lookup_In k v d : Dict.lookup k d = Some v -> In (k, v) d.
Proof.
  induction d as [|[k0 v0] d IH]; simpl; [discriminate|].
  destruct (String.eqb k k0) eqn:E.
  - apply String.eqb_eq in E. intros [= ->]. left. now subst.
  - intros H. right. now apply IH.
Qed.

Lemma lookup_None_keys k d : Dict.lookup k d = None <-> ~ In k (Dict.keys d).
Proof.
  induction d as [|[k0 v0] d IH]; simpl; [tauto|].
  destruct (String.eqb k k0) eqn:E.
  - apply String.eqb_eq in E. subst. split; [discriminate | tauto].
  - apply String.eqb_neq in E. rewrite IH. unfold Dict.keys. split.
    + intros H [H1 | H1]; [congruence | tauto].
    + tauto.
Qed.

(** A loop whose body returns without changing the object it runs on and
    without printing is a fold over the entries. *)
Lemma for_items_pure {num Acc} (body : string -> Acc -> Py num V Acc)
  (f : string -> Acc -> V -> Acc) :
  (forall k acc v, body k acc v = Outcome (inr (f k acc v)) v []) ->
  forall d acc,
    Dict.for_items body acc d
    = Outcome (inr (fold_left (fun a kv => f (fst kv) a (snd kv)) d acc)) d [].
Proof.
  intros Hbody. induction d as [|[k v] d IH]; intros acc; simpl.
  - reflexivity.
  - rewrite Hbody. simpl. rewrite IH. reflexivity.
Qed.

Lemma for_values_pure {num Acc} (body : Acc -> Py num V Acc)
  (f : Acc -> V -> Acc) :
  (forall acc v, body acc v = Outcome (inr (f acc v)) v []) ->
  forall d acc,
    Dict.for_values body acc d
    = Outcome (inr (fold_left f (Dict.values d) acc)) d [].
Proof.
  intros Hbody d acc. unfold Dict.for_values.
  rewrite (for_items_pure _ (fun _ => f)) by (intros; apply Hbody).
  f_equal. f_equal. unfold Dict.values.
  revert acc. induction d as [|[k v] d IH]; intros acc; simpl; [reflexivity | apply IH].
Qed.

End DictFacts.

(** ** Exact arithmetic *)

(** The sum of a list of rationals, and the arithmetic mean of a list of
    grades as the specification words it: [sum(G)/len(G)]. *)
Definition Qsum (l : list Q) : Q := fold_right Qplus 0 l.

Definition mean (G : list Q) : Q :=
  Qsum G / inject_Z (Z.of_nat (List.length G)).

Lemma fold_left_Qplus {X} (f : X -> Q) (l : list X) (a : Q) :
  fold_left (fun acc x => acc + f x) l a == a + Qsum (map f l).
Proof.
  revert a. induction l as [|x l IH]; intros a; simpl.
  - ring.
  - rewrite IH. ring.
Qed.

Lemma py_sum_Qsum (l : list Q) : py_sum l == Qsum l.
Proof.
  unfold py_sum. simpl.
  rewrite (fold_left_Qplus (fun x => x) l (inject_Z 0)), map_id.
  change (inject_Z 0) with 0. ring.
Qed.

Lemma pos_not_zero (p : positive) :
  neqb (of_int (Z.pos p) : Q) (of_int 0) = false.
Proof.
  simpl. apply not_true_is_false. intros H.
  apply Qeq_bool_iff in H. unfold Qeq in H. simpl in H. lia.
Qed.

Lemma len_cons {A} (x : A) (l : list A) :
  len (x :: l) = Z.pos (Pos.of_succ_nat (List.length l)).
Proof. unfold len. simpl List.length. lia. Qed.

(** ** Section *)

(** The number [average] returns on exact grades. *)
Definition average_of (s : Section_.t Q) : Q :=
  match Section_.grades s with
  | [] => 0
  | _ :: _ => py_sum (Section_.grades s) / inject_Z (len (Section_.grades s))
  end.

Lemma average_run (s : Section_.t Q) :
  Section_.average s = Outcome (inr (average_of s)) s [].
Proof.
  destruct s as [n w [|g gs]]; [reflexivity|].
  unfold Section_.average, average_of, bind, get.
  cbn [result final printed Section_.grades truthy].
  unfold truediv. rewrite len_cons, pos_not_zero. reflexivity.
Qed.

Lemma average_of_mean (s : Section_.t Q) :
  Section_.grades s <> [] -> average_of s == mean (Section_.grades s).
Proof.
  unfold average_of, mean. destruct (Section_.grades s) as [|g gs] eqn:E.
  - congruence.
  - intros _. rewrite py_sum_Qsum. reflexivity.
Qed.

Lemma average_of_empty (s : Section_.t Q) :
  Section_.grades s = [] -> average_of s = 0.
Proof. unfold average_of. now intros ->. Qed.

(** ** Course *)

(** The sections of a course that have at least one grade. *)
Definition graded {num} (c : Course.t num) : list (Section_.t num) :=
  filter (fun s => truthy (Section_.grades s)) (Dict.values (Course.sections c)).

(** What one section adds to the overall grade, and the loop of
    [calculate_overall_grade] as a fold. *)
Definition share_of (s : Section_.t Q) : Q :=
  average_of s * (Section_.weight s / 100).

Definition overall_of (c : Course.t Q) : Q :=
  fold_left (fun overall s => overall + share_of s)
    (Dict.values (Course.sections c)) 0.

Lemma calculate_overall_grade_run (c : Course.t Q) :
  Course.calculate_overall_grade c = Outcome (inr (overall_of c)) c [].
Proof.
  unfold Course.calculate_overall_grade, Course.on_sections, within.
  rewrite (for_values_pure _ (fun overall s => overall + share_of s)).
  - destruct c; reflexivity.
  - intros acc v. unfold bind. rewrite average_run. reflexivity.
Qed.

(** The loop of [calculate_current_grade] as a fold: the pair
    [(total_weight, total_score)]. *)
Definition totals_step (acc : Q * Q) (s : Section_.t Q) : Q * Q :=
  if truthy (Section_.grades s)
  then (fst acc + Section_.weight s, snd acc + average_of s * Section_.weight s)
  else acc.

Definition totals_of (c : Course.t Q) : Q * Q :=
  fold_left totals_step (Dict.values (Course.sections c)) (0, 0).

Definition current_of (c : Course.t Q) : option Q :=
  if Qeq_bool (fst (totals_of c)) 0
  then None
  else Some (snd (totals_of c) / fst (totals_of c)).

Lemma current_grade_finish {St} (tw ts : Q) (s : St) :
  (if neqb tw (of_int 0)
   then ret None
   else grade <- truediv ts tw ;; ret (Some grade)) s
  = Outcome (num:=Q)
      (inr (if Qeq_bool tw 0 then None else Some (ts / tw))) s [].
Proof.
  unfold bind, truediv. change (neqb tw (of_int 0)) with (Qeq_bool tw 0).
  destruct (Qeq_bool tw 0); reflexivity.
Qed.

Lemma calculate_current_grade_run (c : Course.t Q) :
  Course.calculate_current_grade c = Outcome (inr (current_of c)) c [].
Proof.
  unfold Course.calculate_current_grade, Course.on_sections, within, bind at 1.
  rewrite (for_values_pure _ totals_step).
  - cbn [result final printed]. change (of_int 0 : Q) with (0 : Q).
    fold (totals_of c). unfold current_of.
    destruct (totals_of c) as [tw ts]. rewrite current_grade_finish.
    destruct c; reflexivity.
  - intros [tw ts] v. unfold bind, get, totals_step. cbn [result final printed fst snd].
    destruct (truthy (Section_.grades v)); [|reflexivity].
    rewrite average_run. reflexivity.
Qed.

Lemma totals_graded (l : list (Section_.t Q)) (acc : Q * Q) :
  fst (fold_left totals_step l acc)
  == fst acc
     + Qsum (map Section_.weight
               (filter (fun s => truthy (Section_.grades s)) l))
  /\ snd (fold_left totals_step l acc)
     == snd acc
        + Qsum (map (fun s => average_of s * Section_.weight s)
                  (filter (fun s => truthy (Section_.grades s)) l)).
Proof.
  revert acc. induction l as [|s l IH]; intros acc; simpl.
  - split; ring.
  - destruct (IH (totals_step acc s)) as [H1 H2]. rewrite H1, H2.
    unfold totals_step. destruct (truthy (Section_.grades s)); simpl; split; ring.
Qed.

(** What a section adds to the overall grade as the specification words it:
    its average (the mean of its grades, 0 when it has none) times
    [weight/100]. *)
Definition spec_average (s : Section_.t Q) : Q :=
  match Section_.grades s with
  | [] => 0
  | _ :: _ => mean (Section_.grades s)
  end.

Definition contribution (s : Section_.t Q) : Q :=
  spec_average s * (Section_.weight s / 100).

Lemma average_of_spec (s : Section_.t Q) : average_of s == spec_average s.
Proof.
  unfold spec_average. destruct (Section_.grades s) as [|g gs] eqn:E.
  - rewrite average_of_empty by assumption. reflexivity.
  - rewrite <- E. apply average_of_mean. congruence.
Qed.

Lemma share_of_contribution (s : Section_.t Q) : share_of s == contribution s.
Proof. unfold share_of, contribution. now rewrite average_of_spec. Qed.

Lemma Qsum_map_ext {X} (f g : X -> Q) (l : list X) :
  (forall x, In x l -> f x == g x) -> Qsum (map f l) == Qsum (map g l).
Proof.
  induction l as [|x l IH]; intros H; simpl; [reflexivity|].
  rewrite (H x (or_introl eq_refl)), IH; [reflexivity|].
  intros y Hy. apply H. now right.
Qed.

Lemma Qsum_filter_zero {X} (f : X -> Q) (p : X -> bool) (l : list X) :
  (forall x, In x l -> p x = false -> f x == 0) ->
  Qsum (map f l) == Qsum (map f (filter p l)).
Proof.
  induction l as [|x l IH]; intros H; simpl; [reflexivity|].
  assert (IH' : Qsum (map f l) == Qsum (map f (filter p l)))
    by (apply IH; intros y Hy; apply H; now right).
  destruct (p x) eqn:E; simpl; rewrite IH'; [reflexivity|].
  rewrite (H x (or_introl eq_refl) E). ring.
Qed.

Lemma contribution_ungraded (s : Section_.t Q) :
  Section_.grades s = [] -> contribution s == 0.
Proof. unfold contribution, spec_average. intros ->. ring. Qed.

Lemma truthy_false {A} (l : list A) : truthy l = false -> l = [].
Proof. now destruct l. Qed.

(** ** Averages and grades *)

(** In exact arithmetic [Section.average] returns the arithmetic mean of
    a non-empty grade sequence and 0 for the empty one, and it changes
    nothing: the section is as before and nothing is printed. *)
Theorem average_mean_or_sentinel (s : Section_.t Q) :
  final (Section_.average s) = s
  /\ printed (Section_.average s) = []
  /\ (Section_.grades s = [] -> result (Section_.average s) = inr (0 : Q))
  /\ (Section_.grades s <> [] ->
      exists q, result (Section_.average s) = inr q
                /\ q == mean (Section_.grades s)).
Proof.
  rewrite average_run. cbn [result final printed].
  repeat split.
  - intros H. now rewrite average_of_empty.
  - intros H. exists (average_of s). split; [reflexivity|].
    now apply average_of_mean.
Qed.

(** In exact arithmetic [Course.calculate_overall_grade] returns the sum
    over all sections of [section.average() * section.weight/100]; a
    section with no grade adds 0, so the sum is also the sum over the
    graded sections alone. The course is left as it was. *)
Theorem overall_grade_sum (c : Course.t Q) :
  final (Course.calculate_overall_grade c) = c
  /\ printed (Course.calculate_overall_grade c) = []
  /\ (forall s, In s (Dict.values (Course.sections c)) ->
        Section_.grades s = [] -> contribution s == 0)
  /\ exists q, result (Course.calculate_overall_grade c) = inr q
       /\ q == Qsum (map contribution (Dict.values (Course.sections c)))
       /\ q == Qsum (map contribution (graded c)).
Proof.
  rewrite calculate_overall_grade_run. cbn [result final printed].
  repeat split.
  - intros s _. apply contribution_ungraded.
  - exists (overall_of c).
    assert (H : overall_of c
                == Qsum (map contribution (Dict.values (Course.sections c)))).
    { unfold overall_of. rewrite fold_left_Qplus.
      rewrite (Qsum_map_ext share_of contribution)
        by (intros; apply share_of_contribution).
      ring. }
    repeat split; [exact H|].
    rewrite H. unfold graded. apply Qsum_filter_zero.
    intros s _ Hs. apply contribution_ungraded. now apply truthy_false.
Qed.

(** The current grade as the specification words it: over the graded
    sections, the sum of [average * weight] divided by the sum of the
    weights. *)
Definition graded_weight (c : Course.t Q) : Q :=
  Qsum (map Section_.weight (graded c)).

Definition graded_score (c : Course.t Q) : Q :=
  Qsum (map (fun s => spec_average s * Section_.weight s) (graded c)).

Lemma totals_of_graded (c : Course.t Q) :
  fst (totals_of c) == graded_weight c /\ snd (totals_of c) == graded_score c.
Proof.
  unfold totals_of, graded_weight, graded_score, graded.
  destruct (totals_graded (Dict.values (Course.sections c)) (0, 0)) as [H1 H2].
  rewrite H1, H2. cbn [fst snd]. split; [ring|].
  rewrite (Qsum_map_ext (fun s => average_of s * Section_.weight s)
             (fun s => spec_average s * Section_.weight s)).
  - ring.
  - intros s _. now rewrite average_of_spec.
Qed.

Lemma current_of_None (c : Course.t Q) :
  current_of c = None <-> graded_weight c == 0.
Proof.
  unfold current_of. destruct (totals_of_graded c) as [H _].
  destruct (Qeq_bool (fst (totals_of c)) 0) eqn:E.
  - apply Qeq_bool_iff in E. rewrite <- H. tauto.
  - split; [discriminate|]. intros H0. rewrite <- H in H0.
    apply Qeq_bool_iff in H0. congruence.
Qed.

Lemma current_of_Some (c : Course.t Q) :
  ~ graded_weight c == 0 ->
  exists q, current_of c = Some q /\ q == graded_score c / graded_weight c.
Proof.
  intros Hw. unfold current_of. destruct (totals_of_graded c) as [H1 H2].
  destruct (Qeq_bool (fst (totals_of c)) 0) eqn:E.
  - apply Qeq_bool_iff in E. rewrite H1 in E. contradiction.
  - eexists. split; [reflexivity|]. now rewrite H1, H2.
Qed.

(** A course whose only graded section weighs nothing. *)
Definition zero_weight_course : Course.t Q :=
  Course.mk "Pass/Fail" [("Attendance", Section_.mk "Attendance" 0 [50])]%string.

(** C1 does not hold with "exactly when zero sections have any recorded
    grade": the course above has a graded section and still gets [None]. *)
Lemma current_grade_none_with_grades :
  ~ (result (Course.calculate_current_grade zero_weight_course) = inr None
     <-> graded zero_weight_course = []).
Proof.
  intros [H _]. specialize (H eq_refl). discriminate H.
Qed.

(** In exact arithmetic [Course.calculate_current_grade] returns [None]
    exactly when the weights of the sections with at least one grade sum
    to 0, which covers the course with no graded section; otherwise it
    returns the sum of [average * weight] over the graded sections divided
    by the sum of their weights. The course is left as it was. *)
Theorem current_grade_none_or_weighted_mean (c : Course.t Q) :
  final (Course.calculate_current_grade c) = c
  /\ printed (Course.calculate_current_grade c) = []
  /\ (result (Course.calculate_current_grade c) = inr None
      <-> graded_weight c == 0)
  /\ (graded c = [] -> result (Course.calculate_current_grade c) = inr None)
  /\ (~ graded_weight c == 0 ->
      exists q, result (Course.calculate_current_grade c) = inr (Some q)
                /\ q == graded_score c / graded_weight c).
Proof.
  rewrite calculate_current_grade_run. cbn [result final printed].
  repeat split.
  - intros [= H]. now apply current_of_None.
  - intros H. f_equal. now apply current_of_None.
  - intros H. f_equal. apply current_of_None.
    unfold graded_weight. rewrite H. reflexivity.
  - intros H. destruct (current_of_Some c H) as (q & -> & Hq). now exists q.
Qed.


(** ** The Algorithms scenario *)

Definition algorithms {num} {N : PyNum num} : Course.t num :=
  Course.mk "Algorithms"
    [("HW", Section_.mk "HW" (of_int 40) [of_int 80; of_int 90]);
     ("Exam", Section_.mk "Exam" (of_int 60) [])]%string.

(** The calls that set the course up. *)
Definition setup_algorithms {num} {N : PyNum num} : Py num (Course.t num) unit :=
  (Course.add_section "HW" (of_int 40) ;;
   Course.add_section "Exam" (of_int 60) ;;
   Course.add_assignment_grade "HW" (of_int 80) ;;
   Course.add_assignment_grade "HW" (of_int 90))%string.

Lemma setup_algorithms_exact :
  setup_algorithms (Course.init "Algorithms" None)
  = Outcome (inr tt) (algorithms (num := Q)) [].
Proof. reflexivity. Qed.

Lemma setup_algorithms_binary64 :
  setup_algorithms (Course.init "Algorithms" None)
  = Outcome (inr tt) (algorithms (num := float)) [].
Proof. vm_compute. reflexivity. Qed.

(** C9. For the course "Algorithms" with section "HW" (weight 40, grades
    80 and 90) and section "Exam" (weight 60, no grade) the current grade
    is 85.0 and the overall grade is 34.0: in binary64 to the bit, and in
    exact arithmetic. *)
Theorem algorithms_grades :
  result (Course.calculate_current_grade (algorithms (num := float)))
  = inr (Some 85%float)
  /\ result (Course.calculate_overall_grade (algorithms (num := float)))
     = inr 34%float
  /\ (exists q, result (Course.calculate_current_grade (algorithms (num := Q)))
                = inr (Some q) /\ q == 85)
  /\ (exists q, result (Course.calculate_overall_grade (algorithms (num := Q)))
                = inr q /\ q == 34).
Proof.
  split; [|split; [|split]].
  - vm_compute. reflexivity.
  - vm_compute. reflexivity.
  - eexists. split; [vm_compute; reflexivity | reflexivity].
  - eexists. split; [vm_compute; reflexivity | reflexivity].
Qed.

(** ** The order of binary64 *)

Lemma SFcompare_antisym (a b : spec_float) :
  SFcompare b a = option_map CompOpp (SFcompare a b).
Proof.
  destruct a as [sa|sa| |sa ma ea], b as [sb|sb| |sb mb eb];
    try reflexivity;
    try (destruct sa; reflexivity);
    try (destruct sb; reflexivity);
    try (destruct sa, sb; reflexivity).
  destruct sa, sb; try reflexivity; simpl;
    rewrite (Z.compare_antisym ea eb);
    destruct (ea ?= eb)%Z; simpl; try reflexivity;
    change (Pos.compare_cont Eq) with Pos.compare;
    rewrite (Pos.compare_antisym ma mb); try reflexivity.
Qed.

Lemma SFltb_not_leb (a b : spec_float) : SFltb a b = true -> SFleb b a = false.
Proof.
  unfold SFltb, SFleb. rewrite (SFcompare_antisym a b).
  destruct (SFcompare a b) as [[ | | ]|]; simpl; congruence.
Qed.

Definition lex_le (c : comparison) : bool :=
  match c with Gt => false | _ => true end.

Definition lex (e : Z) (m : positive) (e' : Z) (m' : positive) : comparison :=
  match (e ?= e')%Z with
  | Lt => Lt
  | Gt => Gt
  | Eq => Pos.compare_cont Eq m m'
  end.

Ltac compare_facts :=
  repeat match goal with
    | H : (_ ?= _)%Z = Eq |- _ => apply Z.compare_eq_iff in H
    | H : (?a ?= ?b)%Z = Lt |- _ => change (a < b)%Z in H
    | H : (?a ?= ?b)%Z = Gt |- _ => change (a > b)%Z in H
    | H : (_ ?= _)%positive = Eq |- _ => apply Pos.compare_eq_iff in H
    | H : (?a ?= ?b)%positive = Lt |- _ => change (a < b)%positive in H
    | H : (?a ?= ?b)%positive = Gt |- _ => change (a > b)%positive in H
    end.

Lemma lex_trans (e1 e2 e3 : Z) (m1 m2 m3 : positive) :
  lex_le (lex e1 m1 e2 m2) = true -> lex_le (lex e2 m2 e3 m3) = true ->
  lex_le (lex e1 m1 e3 m3) = true.
Proof.
  unfold lex. change (Pos.compare_cont Eq) with Pos.compare.
  destruct (e1 ?= e2)%Z eqn:E12, (e2 ?= e3)%Z eqn:E23, (e1 ?= e3)%Z eqn:E13;
    destruct (m1 ?= m2)%positive eqn:M12, (m2 ?= m3)%positive eqn:M23,
      (m1 ?= m3)%positive eqn:M13;
    simpl; try easy; intros _ _; exfalso; compare_facts; lia.
Qed.

Lemma SFleb_finite_pos (m1 m2 : positive) (e1 e2 : Z) :
  SFleb (S754_finite false m1 e1) (S754_finite false m2 e2)
  = lex_le (lex e1 m1 e2 m2).
Proof.
  unfold SFleb, lex. simpl. destruct (e1 ?= e2)%Z; reflexivity.
Qed.

Lemma SFleb_finite_neg (m1 m2 : positive) (e1 e2 : Z) :
  SFleb (S754_finite true m1 e1) (S754_finite true m2 e2)
  = lex_le (lex e2 m2 e1 m1).
Proof.
  unfold SFleb, lex. simpl. rewrite (Z.compare_antisym e1 e2).
  destruct (e1 ?= e2)%Z; simpl; try reflexivity.
  change (Pos.compare_cont Eq) with Pos.compare.
  rewrite (Pos.compare_antisym m1 m2).
  destruct (m1 ?= m2)%positive; reflexivity.
Qed.

Lemma SFleb_trans (a b c : spec_float) :
  SFleb a b = true -> SFleb b c = true -> SFleb a c = true.
Proof.
  destruct a as [sa|sa| |sa ma ea], b as [sb|sb| |sb mb eb],
    c as [sc|sc| |sc mc ec];
    try (unfold SFleb; simpl; easy);
    try (destruct sa; unfold SFleb; simpl; easy);
    try (destruct sb; unfold SFleb; simpl; easy);
    try (destruct sc; unfold SFleb; simpl; easy);
    try (destruct sa, sb; unfold SFleb; simpl; easy);
    try (destruct sa, sc; unfold SFleb; simpl; easy);
    try (destruct sb, sc; unfold SFleb; simpl; easy);
    try (destruct sa, sb, sc; unfold SFleb; simpl; easy).
  destruct sa, sb, sc; try (unfold SFleb; simpl; easy).
  - rewrite !SFleb_finite_neg. intros H1 H2. exact (lex_trans _ _ _ _ _ _ H2 H1).
  - rewrite !SFleb_finite_pos. apply lex_trans.
Qed.

Lemma float_ltb_not_leb (x y : float) :
  PrimFloat.ltb x y = true -> PrimFloat.leb y x = false.
Proof.
  rewrite FloatAxioms.ltb_spec, FloatAxioms.leb_spec. apply SFltb_not_leb.
Qed.

Lemma float_leb_trans (x y z : float) :
  PrimFloat.leb x y = true -> PrimFloat.leb y z = true ->
  PrimFloat.leb x z = true.
Proof. rewrite !FloatAxioms.leb_spec. apply SFleb_trans. Qed.

(** Below a threshold, below every higher one. *)
Lemma float_below (a b x : float) :
  PrimFloat.leb a b = true -> PrimFloat.ltb x a = true ->
  PrimFloat.leb b x = false.
Proof.
  intros Hab Hx. apply float_ltb_not_leb in Hx.
  destruct (PrimFloat.leb b x) eqn:E; [|reflexivity].
  rewrite (float_leb_trans a b x Hab E) in Hx. discriminate.
Qed.

(** ** Letter grades *)

Lemma Qle_bool_below (a x : Q) : x < a -> Qle_bool a x = false.
Proof.
  intros H. apply not_true_is_false. rewrite Qle_bool_iff. lra.
Qed.

Ltac letter_exact :=
  unfold Course.determine_letter_grade;
  change (@ngeb Q Exact) with (fun x y => Qle_bool y x);
  change (@of_int Q Exact 90) with 90;
  change (@of_int Q Exact 80) with 80;
  change (@of_int Q Exact 70) with 70;
  change (@of_int Q Exact 60) with 60;
  cbv beta;
  repeat match goal with
    | |- context [Qle_bool ?a ?x] =>
        first [ rewrite (proj2 (Qle_bool_iff a x)) by lra
              | rewrite (Qle_bool_below a x) by lra ]
    end;
  reflexivity.

Lemma letter_exact_pure (self : Course.t Q) (x : Q) :
  final (Course.determine_letter_grade x self) = self
  /\ printed (Course.determine_letter_grade x self) = [].
Proof.
  unfold Course.determine_letter_grade.
  repeat match goal with
    | |- context [if ?b then _ else _] => destruct b
    end; split; reflexivity.
Qed.

Lemma letter_exact_thresholds (self : Course.t Q) (x : Q) :
  (90 <= x -> result (Course.determine_letter_grade x self) = inr "A"%string)
  /\ (80 <= x < 90 ->
      result (Course.determine_letter_grade x self) = inr "B"%string)
  /\ (70 <= x < 80 ->
      result (Course.determine_letter_grade x self) = inr "C"%string)
  /\ (60 <= x < 70 ->
      result (Course.determine_letter_grade x self) = inr "D"%string)
  /\ (x < 60 -> result (Course.determine_letter_grade x self) = inr "F"%string).
Proof.
  repeat split; intros H; letter_exact.
Qed.

Lemma letter_binary64_pure (self : Course.t float) (x : float) :
  final (Course.determine_letter_grade x self) = self
  /\ printed (Course.determine_letter_grade x self) = [].
Proof.
  unfold Course.determine_letter_grade.
  repeat match goal with
    | |- context [if ?b then _ else _] => destruct b
    end; split; reflexivity.
Qed.

Lemma letter_binary64_thresholds (self : Course.t float) (x : float) :
  (PrimFloat.leb 90 x = true ->
   result (Course.determine_letter_grade x self) = inr "A"%string)
  /\ (PrimFloat.leb 80 x = true /\ PrimFloat.ltb x 90 = true ->
      result (Course.determine_letter_grade x self) = inr "B"%string)
  /\ (PrimFloat.leb 70 x = true /\ PrimFloat.ltb x 80 = true ->
      result (Course.determine_letter_grade x self) = inr "C"%string)
  /\ (PrimFloat.leb 60 x = true /\ PrimFloat.ltb x 70 = true ->
      result (Course.determine_letter_grade x self) = inr "D"%string)
  /\ (PrimFloat.ltb x 60 = true ->
      result (Course.determine_letter_grade x self) = inr "F"%string).
Proof.
  unfold Course.determine_letter_grade.
  change (@ngeb float Binary64) with (fun x y => PrimFloat.leb y x).
  change (@of_int float Binary64 90) with 90%float.
  change (@of_int float Binary64 80) with 80%float.
  change (@of_int float Binary64 70) with 70%float.
  change (@of_int float Binary64 60) with 60%float.
  cbv beta.
  split; [|split; [|split; [|split]]].
  - intros H. now rewrite H.
  - intros [H1 H2]. now rewrite (float_ltb_not_leb _ _ H2), H1.
  - intros [H1 H2].
    now rewrite (float_below 80 90 x eq_refl H2), (float_ltb_not_leb _ _ H2), H1.
  - intros [H1 H2].
    now rewrite (float_below 70 90 x eq_refl H2), (float_below 70 80 x eq_refl H2),
      (float_ltb_not_leb _ _ H2), H1.
  - intros H.
    now rewrite (float_below 60 90 x eq_refl H), (float_below 60 80 x eq_refl H),
      (float_below 60 70 x eq_refl H), (float_ltb_not_leb _ _ H).
Qed.

(** The inputs of the boundary test and the letters it expects. *)
Definition boundary_letters : list (exn + string) :=
  map inr ["A"; "B"; "B"; "C"; "C"; "D"; "D"; "F"]%string.

Definition boundaries_exact : list Q :=
  [90; 89.999; 80; 79.999; 70; 69.999; 60; 59.999].

Definition boundaries_binary64 : list float :=
  [90; 89.999; 80; 79.999; 70; 69.999; 60; 59.999]%float.

(** C4. [Course.determine_letter_grade] maps [x] to A when [x >= 90], to B
    when [80 <= x < 90], to C when [70 <= x < 80], to D when [60 <= x < 70]
    and to F when [x < 60], comparing the number as it is; it changes
    nothing. This holds for every rational and for every binary64 value,
    and the eight boundary inputs get A, B, B, C, C, D, D, F. *)
Theorem letter_grade_thresholds :
  (forall (self : Course.t Q) (x : Q),
      final (Course.determine_letter_grade x self) = self
      /\ printed (Course.determine_letter_grade x self) = []
      /\ (90 <= x ->
          result (Course.determine_letter_grade x self) = inr "A"%string)
      /\ (80 <= x < 90 ->
          result (Course.determine_letter_grade x self) = inr "B"%string)
      /\ (70 <= x < 80 ->
          result (Course.determine_letter_grade x self) = inr "C"%string)
      /\ (60 <= x < 70 ->
          result (Course.determine_letter_grade x self) = inr "D"%string)
      /\ (x < 60 ->
          result (Course.determine_letter_grade x self) = inr "F"%string))
  /\ (forall (self : Course.t float) (x : float),
         final (Course.determine_letter_grade x self) = self
         /\ printed (Course.determine_letter_grade x self) = []
         /\ (PrimFloat.leb 90 x = true ->
             result (Course.determine_letter_grade x self) = inr "A"%string)
         /\ (PrimFloat.leb 80 x = true /\ PrimFloat.ltb x 90 = true ->
             result (Course.determine_letter_grade x self) = inr "B"%string)
         /\ (PrimFloat.leb 70 x = true /\ PrimFloat.ltb x 80 = true ->
             result (Course.determine_letter_grade x self) = inr "C"%string)
         /\ (PrimFloat.leb 60 x = true /\ PrimFloat.ltb x 70 = true ->
             result (Course.determine_letter_grade x self) = inr "D"%string)
         /\ (PrimFloat.ltb x 60 = true ->
             result (Course.determine_letter_grade x self) = inr "F"%string))
  /\ (forall self : Course.t Q,
         map (fun x => result (Course.determine_letter_grade x self))
           boundaries_exact = boundary_letters)
  /\ (forall self : Course.t float,
         map (fun x => result (Course.determine_letter_grade x self))
           boundaries_binary64 = boundary_letters).
Proof.
  split; [|split; [|split]].
  - intros self x.
    destruct (letter_exact_pure self x) as [H1 H2].
    split; [exact H1 | split; [exact H2 | apply letter_exact_thresholds]].
  - intros self x.
    destruct (letter_binary64_pure self x) as [H1 H2].
    split; [exact H1 | split; [exact H2 | apply letter_binary64_thresholds]].
  - intros self. vm_compute. reflexivity.
  - intros self. vm_compute. reflexivity.
Qed.

(** ** Sections by name *)

Lemma at_key_found {num V A} (k : string) (m : Py num V A) (d : Dict.t V) (v : V) :
  Dict.lookup k d = Some v ->
  Dict.at_key k m d
  = Outcome (result (m v)) (Dict.setitem k (final (m v)) d) (printed (m v)).
Proof. unfold Dict.at_key. now intros ->. Qed.

Section CourseEdits.
Context {num : Type} {N : PyNum num}.
Implicit Types (c : Course.t num) (s : Section_.t num).

(** The course with the section under [k] replaced by [s]. *)
Definition with_section (k : string) s c : Course.t num :=
  Course.mk (Course.name c) (Dict.setitem k s (Course.sections c)).

Lemma add_section_existing c (name : string) (weight : num) s :
  Dict.lookup name (Course.sections c) = Some s ->
  Course.add_section name weight c
  = Outcome (inr tt)
      (with_section name
         (Section_.mk (Section_.name s) weight (Section_.grades s)) c)
      [SectionExists name (Course.name c) weight].
Proof.
  intros H. unfold Course.add_section, bind at 1, get. cbn [result final printed].
  rewrite contains_lookup, H.
  unfold bind, print, Course.on_sections, within. cbn [result final printed].
  rewrite (at_key_found _ _ _ _ H). reflexivity.
Qed.

Lemma add_section_new c (name : string) (weight : num) :
  Dict.lookup name (Course.sections c) = None ->
  Course.add_section name weight c
  = Outcome (inr tt)
      (Course.mk (Course.name c)
         (Course.sections c ++ [(name, Section_.mk name weight [])]))
      [].
Proof.
  intros H. unfold Course.add_section, bind at 1, get. cbn [result final printed].
  rewrite contains_lookup, H.
  unfold Course.on_sections, within, Dict.assign. cbn [result final printed].
  now rewrite setitem_absent.
Qed.

Lemma add_assignment_grade_found c (section_name : string) (grade : num) s :
  Dict.lookup section_name (Course.sections c) = Some s ->
  Course.add_assignment_grade section_name grade c
  = Outcome (inr tt)
      (with_section section_name
         (Section_.mk (Section_.name s) (Section_.weight s)
            (Section_.grades s ++ [grade])) c)
      [].
Proof.
  intros H. unfold Course.add_assignment_grade, bind at 1, get.
  cbn [result final printed]. rewrite contains_lookup, H.
  unfold Course.on_sections, within. rewrite (at_key_found _ _ _ _ H). reflexivity.
Qed.

Lemma add_assignment_grade_missing c (section_name : string) (grade : num) :
  Dict.lookup section_name (Course.sections c) = None ->
  Course.add_assignment_grade section_name grade c
  = Outcome (inr tt) c [SectionMissing section_name (Course.name c)].
Proof.
  intros H. unfold Course.add_assignment_grade, bind at 1, get.
  cbn [result final printed]. rewrite contains_lookup, H. reflexivity.
Qed.

Lemma update_section_weight_found c (section_name : string) (new_weight : num) s :
  Dict.lookup section_name (Course.sections c) = Some s ->
  Course.update_section_weight section_name new_weight c
  = Outcome (inr tt)
      (with_section section_name
         (Section_.mk (Section_.name s) new_weight (Section_.grades s)) c)
      [].
Proof.
  intros H. unfold Course.update_section_weight, bind at 1, get.
  cbn [result final printed]. rewrite contains_lookup, H.
  unfold Course.on_sections, within. rewrite (at_key_found _ _ _ _ H). reflexivity.
Qed.

Lemma update_section_weight_missing c (section_name : string) (new_weight : num) :
  Dict.lookup section_name (Course.sections c) = None ->
  Course.update_section_weight section_name new_weight c
  = Outcome (inr tt) c [SectionMissing section_name (Course.name c)].
Proof.
  intros H. unfold Course.update_section_weight, bind at 1, get.
  cbn [result final printed]. rewrite contains_lookup, H. reflexivity.
Qed.

(** Replacing the section under a name it is stored under touches that
    entry alone. *)
Lemma with_section_frame (k : string) s c :
  Dict.lookup k (Course.sections (with_section k s c)) = Some s
  /\ (forall k', k' <> k ->
        Dict.lookup k' (Course.sections (with_section k s c))
        = Dict.lookup k' (Course.sections c))
  /\ Course.name (with_section k s c) = Course.name c.
Proof.
  unfold with_section. cbn [Course.sections Course.name]. repeat split.
  - apply lookup_setitem_same.
  - intros k' Hk. apply lookup_setitem_other. congruence.
Qed.

Lemma with_section_keys (k : string) s s0 c :
  Dict.lookup k (Course.sections c) = Some s0 ->
  Dict.keys (Course.sections (with_section k s c))
  = Dict.keys (Course.sections c).
Proof. intros H. exact (keys_setitem_present k s s0 _ H). Qed.

End CourseEdits.

(** C6. [Course.add_section name weight] on a course that has a section
    under [name] replaces that section's weight and leaves its grades and
    its name as they were, the other sections and the order of the
    sections too, and prints the notice; on a course that has none it adds
    a section of that name and weight with no grade, after the others. It
    never raises. *)
Theorem add_section_updates_or_creates {num} {N : PyNum num}
  (c : Course.t num) (name : string) (weight : num) :
  result (Course.add_section name weight c) = inr tt
  /\ Course.name (final (Course.add_section name weight c)) = Course.name c
  /\ (forall k, k <> name ->
        Dict.lookup k (Course.sections (final (Course.add_section name weight c)))
        = Dict.lookup k (Course.sections c))
  /\ (forall s, Dict.lookup name (Course.sections c) = Some s ->
        Dict.lookup name
          (Course.sections (final (Course.add_section name weight c)))
        = Some (Section_.mk (Section_.name s) weight (Section_.grades s))
        /\ Dict.keys (Course.sections (final (Course.add_section name weight c)))
           = Dict.keys (Course.sections c)
        /\ printed (Course.add_section name weight c)
           = [SectionExists name (Course.name c) weight])
  /\ (Dict.lookup name (Course.sections c) = None ->
        Course.sections (final (Course.add_section name weight c))
        = Course.sections c ++ [(name, Section_.mk name weight [])]
        /\ printed (Course.add_section name weight c) = []).
Proof.
  destruct (Dict.lookup name (Course.sections c)) as [s|] eqn:E.
  - rewrite (add_section_existing c name weight s E). cbn [result final printed].
    destruct (with_section_frame name
                (Section_.mk (Section_.name s) weight (Section_.grades s)) c)
      as (H1 & H2 & H3).
    split; [reflexivity | split; [exact H3 | split; [exact H2 | split]]].
    + intros s' [= <-]. split; [exact H1 | split; [|reflexivity]].
      now apply with_section_keys with (s0 := s).
    + discriminate.
  - rewrite (add_section_new c name weight E).
    cbn [result final printed Course.name Course.sections].
    split; [reflexivity | split; [reflexivity | split; [|split]]].
    + intros k Hk.
      rewrite <- (setitem_absent name (Section_.mk name weight []) _ E).
      apply lookup_setitem_other. congruence.
    + discriminate.
    + intros _. split; reflexivity.
Qed.

(** C7. [Course.add_assignment_grade] with a section name the course does
    not have returns without raising and leaves the course as it was; with
    a name it has, it appends the grade to that section's grades and
    changes nothing else. [Course.update_section_weight] with a name the
    course does not have leaves the course as it was, too. *)
Theorem grade_to_absent_section_is_noop {num} {N : PyNum num}
  (c : Course.t num) (section_name : string) (grade new_weight : num) :
  result (Course.add_assignment_grade section_name grade c) = inr tt
  /\ result (Course.update_section_weight section_name new_weight c) = inr tt
  /\ (Dict.lookup section_name (Course.sections c) = None ->
        final (Course.add_assignment_grade section_name grade c) = c
        /\ printed (Course.add_assignment_grade section_name grade c)
           = [SectionMissing section_name (Course.name c)]
        /\ final (Course.update_section_weight section_name new_weight c) = c)
  /\ (forall s, Dict.lookup section_name (Course.sections c) = Some s ->
        Dict.lookup section_name
          (Course.sections
             (final (Course.add_assignment_grade section_name grade c)))
        = Some (Section_.mk (Section_.name s) (Section_.weight s)
                  (Section_.grades s ++ [grade]))
        /\ Dict.keys
             (Course.sections
                (final (Course.add_assignment_grade section_name grade c)))
           = Dict.keys (Course.sections c))
  /\ (forall k, k <> section_name ->
        Dict.lookup k
          (Course.sections
             (final (Course.add_assignment_grade section_name grade c)))
        = Dict.lookup k (Course.sections c))
  /\ Course.name (final (Course.add_assignment_grade section_name grade c))
     = Course.name c.
Proof.
  destruct (Dict.lookup section_name (Course.sections c)) as [s|] eqn:E.
  - rewrite (add_assignment_grade_found c section_name grade s E).
    rewrite (update_section_weight_found c section_name new_weight s E).
    cbn [result final printed].
    destruct (with_section_frame section_name
                (Section_.mk (Section_.name s) (Section_.weight s)
                   (Section_.grades s ++ [grade])) c)
      as (H1 & H2 & H3).
    split; [reflexivity | split; [reflexivity | split; [discriminate|]]].
    split; [|split; [exact H2 | exact H3]].
    intros s' [= <-]. split; [exact H1|].
    now apply with_section_keys with (s0 := s).
  - rewrite (add_assignment_grade_missing c section_name grade E).
    rewrite (update_section_weight_missing c section_name new_weight E).
    cbn [result final printed].
    split; [reflexivity | split; [reflexivity | split; [now repeat split|]]].
    split; [discriminate | split; reflexivity].
Qed.

(** ** Serialization *)

Lemma outcome_eta {num St A} (o : outcome num St A) :
  Outcome (result o) (final o) (printed o) = o.
Proof. now destruct o. Qed.

(** A computation that returns, followed by another. *)
Lemma bind_returns {num St A B} (m : Py num St A) (k : A -> Py num St B)
  (s s' : St) (a : A) :
  m s = Outcome (inr a) s' [] -> bind m k s = k a s'.
Proof.
  intros H. unfold bind. rewrite H. cbn [result final printed app].
  apply outcome_eta.
Qed.

Lemma bind_raises {num St A B} (m : Py num St A) (k : A -> Py num St B)
  (s s' : St) (e : exn) (o : list (notice num)) :
  m s = Outcome (inl e) s' o -> bind m k s = Outcome (inl e) s' o.
Proof. intros H. unfold bind. now rewrite H. Qed.

Lemma lookup_app_absent {V} (k : string) (d d' : Dict.t V) :
  Dict.lookup k d = None -> Dict.lookup k (d ++ d') = Dict.lookup k d'.
Proof.
  induction d as [|[k0 v0] d IH]; simpl; [reflexivity|].
  destruct (String.eqb k k0); [discriminate | exact IH].
Qed.

(** A comprehension [{k: g(v) for k, v in d.items()}] over a dictionary
    has the entries of [d] in their order. *)
Lemma fold_setitem {V W} (g : string -> V -> W) (d : Dict.t V) (acc : Dict.t W) :
  NoDup (Dict.keys acc ++ Dict.keys d) ->
  fold_left (fun a kv => Dict.setitem (fst kv) (g (fst kv) (snd kv)) a) d acc
  = acc ++ map (fun kv => (fst kv, g (fst kv) (snd kv))) d.
Proof.
  revert acc. induction d as [|[k v] d IH]; intros acc Hnd; simpl.
  - now rewrite app_nil_r.
  - assert (Hk : Dict.lookup k acc = None).
    { apply lookup_None_keys. intros Hin.
      apply NoDup_remove_2 in Hnd. apply Hnd.
      apply in_or_app. now left. }
    rewrite (setitem_absent _ _ _ Hk), IH.
    + now rewrite <- app_assoc.
    + unfold Dict.keys in *. rewrite map_app, <- app_assoc. exact Hnd.
Qed.

Section Documents.
Context {num : Type}.

(** The documents [to_dict] builds. *)
Definition section_doc (s : Section_.t num) : value num :=
  VDict [("name", VStr (Section_.name s));
         ("weight", VNum (Section_.weight s));
         ("grades", VList (map VNum (Section_.grades s)))]%string.

Definition course_doc (c : Course.t num) : value num :=
  VDict [("name", VStr (Course.name c));
         ("sections",
          VDict (map (fun kv => (fst kv, section_doc (snd kv)))
                   (Course.sections c)))]%string.

Lemma section_to_dict_run (s : Section_.t num) :
  Section_.to_dict s = Outcome (inr (section_doc s)) s [].
Proof. reflexivity. Qed.

Lemma all_nums_map (l : list num) : Value.all_nums (map VNum l) = Some l.
Proof. induction l as [|x l IH]; simpl; [reflexivity | now rewrite IH]. Qed.

Lemma section_from_dict_doc {St} (s : Section_.t num) (st : St) :
  Section_.from_dict (section_doc s) st = Outcome (inr s) st [].
Proof.
  destruct s as [n w g]. unfold Section_.from_dict, section_doc, bind.
  cbn. rewrite all_nums_map. reflexivity.
Qed.

Lemma course_to_dict_run (c : Course.t num) :
  Dict.wf (Course.sections c) ->
  Course.to_dict c = Outcome (inr (course_doc c)) c [].
Proof.
  intros Hwf. unfold Course.to_dict, bind at 1, get. cbn [result final printed].
  unfold bind, Course.on_sections, within.
  rewrite (for_items_pure _ (fun k acc s => Dict.setitem k (section_doc s) acc))
    by (intros; reflexivity).
  cbn [result final printed].
  rewrite (fold_setitem (fun _ => section_doc)) by exact Hwf.
  destruct c; reflexivity.
Qed.

Lemma sections_from_docs {St} (d acc : Dict.t (Section_.t num)) (st : St) :
  for_each
    (fun acc '(name, sdata) =>
       section <- Section_.from_dict sdata ;;
       ret (Dict.setitem name section acc))
    (map (fun kv => (fst kv, section_doc (snd kv))) d) acc st
  = Outcome
      (inr (fold_left (fun a kv => Dict.setitem (fst kv) (snd kv) a) d acc))
      st [].
Proof.
  revert acc. induction d as [|[k s] d IH]; intros acc; simpl; [reflexivity|].
  rewrite (bind_returns _ _ st st (Dict.setitem k s acc)); [apply IH|].
  now rewrite (bind_returns _ _ st st s) by apply section_from_dict_doc.
Qed.

Lemma course_from_dict_doc {St} (c : Course.t num) (st : St) :
  Dict.wf (Course.sections c) ->
  Course.from_dict (course_doc c) st = Outcome (inr c) st [].
Proof.
  intros Hwf. destruct c as [n d]. unfold Course.from_dict, course_doc.
  cbn [Course.name Course.sections].
  rewrite (bind_returns _ _ st st
             (VDict (map (fun kv => (fst kv, section_doc (snd kv))) d)))
    by reflexivity.
  rewrite (bind_returns _ _ st st
             (map (fun kv => (fst kv, section_doc (snd kv))) d))
    by reflexivity.
  rewrite (bind_returns _ _ st st d).
  - reflexivity.
  - rewrite sections_from_docs.
    rewrite (fold_setitem (fun _ s => s)) by exact Hwf.
    simpl. f_equal. f_equal. rewrite <- (map_id d) at 2.
    apply map_ext. now intros [? ?].
Qed.

Lemma section_from_dict_no_grades {St} (d : Dict.t (value num))
  (n : string) (w : num) (st : St) :
  Dict.lookup "name"%string d = Some (VStr n) ->
  Dict.lookup "weight"%string d = Some (VNum w) ->
  Dict.lookup "grades"%string d = None ->
  Section_.from_dict (VDict d) st = Outcome (inr (Section_.mk n w [])) st [].
Proof.
  intros Hn Hw Hg.
  unfold Section_.from_dict, Value.subscript, Dict.getitem, Value.get_default,
    Dict.get_default.
  rewrite Hn, Hw, Hg. reflexivity.
Qed.

(** C5. Serialization round-trips: [from_dict] applied to what [to_dict]
    returns gives back the section, and the course, with the same names,
    weights and grades in the same order, whatever the weights and however
    many grades; and a section record without a [grades] field is restored
    with no grade. *)
Theorem serialization_round_trip :
  (forall s : Section_.t num,
      (doc <- Section_.to_dict ;; Section_.from_dict doc) s
      = Outcome (inr s) s [])
  /\ (forall c : Course.t num,
         Dict.wf (Course.sections c) ->
         (doc <- Course.to_dict ;; Course.from_dict doc) c
         = Outcome (inr c) c [])
  /\ (forall (St : Type) (st : St) (d : Dict.t (value num)) (n : string) (w : num),
         Dict.lookup "name"%string d = Some (VStr n) ->
         Dict.lookup "weight"%string d = Some (VNum w) ->
         Dict.lookup "grades"%string d = None ->
         exists s, result (Section_.from_dict (VDict d) st) = inr s
                   /\ Section_.name s = n /\ Section_.weight s = w
                   /\ Section_.grades s = []).
Proof.
  split; [|split].
  - intros s.
    rewrite (bind_returns _ _ s s (section_doc s)) by apply section_to_dict_run.
    apply section_from_dict_doc.
  - intros c Hwf.
    rewrite (bind_returns _ _ c c (course_doc c)) by now apply course_to_dict_run.
    now apply course_from_dict_doc.
  - intros St st d n w Hn Hw Hg.
    rewrite (section_from_dict_no_grades d n w st Hn Hw Hg).
    eexists. repeat split.
Qed.

End Documents.

Lemma algorithms_wf {num} {N : PyNum num} :
  Dict.wf (Course.sections (algorithms (num := num))).
Proof.
  unfold Dict.wf. simpl. repeat constructor; simpl; intuition discriminate.
Defined.

Lemma serialization_round_trip_witness :
  (doc <- Course.to_dict ;; Course.from_dict doc) (algorithms (num := Q))
  = Outcome (inr algorithms) algorithms [].
Proof.
  apply (proj1 (proj2 serialization_round_trip)). apply algorithms_wf.
Defined.

(** ** Course manager *)

Lemma list_getitem_in_range {num St A} (l : list A) (i : Z) (st : St) :
  (0 <= i < len l)%Z ->
  exists a, nth_error l (Z.to_nat i) = Some a
            /\ list_getitem l i st = Outcome (num := num) (inr a) st [].
Proof.
  intros Hi. unfold list_getitem.
  destruct (i <? 0)%Z eqn:E0; [apply Z.ltb_lt in E0; lia|].
  destruct ((0 <=? i) && (i <? len l))%Z eqn:G.
  - destruct (nth_error l (Z.to_nat i)) as [a|] eqn:En.
    + now exists a.
    + apply nth_error_None in En. unfold len in Hi. lia.
  - apply andb_false_iff in G. destruct G as [G|G].
    + apply Z.leb_gt in G. lia.
    + apply Z.ltb_ge in G. lia.
Qed.

Section Manager.
Context {num : Type} {N : PyNum num}.
Implicit Types (m : CourseManager.t num) (c : Course.t num).

(** The ordered listing [get_course_by_index] indexes. *)
Definition listing m : list (Course.t num) :=
  Dict.values (CourseManager.courses m).

Lemma get_course_by_index_run m (i : Z) :
  CourseManager.get_course_by_index i m
  = Outcome
      (inr (if ((0 <=? i) && (i <? len (listing m)))%Z
            then nth_error (listing m) (Z.to_nat i)
            else None))
      m [].
Proof.
  unfold CourseManager.get_course_by_index.
  rewrite (bind_returns _ _ m m m) by reflexivity. fold (listing m).
  destruct ((0 <=? i) && (i <? len (listing m)))%Z eqn:G; [|reflexivity].
  apply andb_true_iff in G. destruct G as [G1 G2].
  apply Z.leb_le in G1. apply Z.ltb_lt in G2.
  destruct (list_getitem_in_range (num := num) (listing m) i m (conj G1 G2))
    as (a & Ha & Hrun).
  rewrite (bind_returns _ _ m m a Hrun), Ha. reflexivity.
Qed.

(** [save_data] writes a document and leaves the courses as they are. *)
Lemma course_to_dict_total c :
  exists doc, Course.to_dict c = Outcome (inr doc) c [].
Proof.
  unfold Course.to_dict. rewrite (bind_returns _ _ c c c) by reflexivity.
  unfold bind, Course.on_sections, within.
  rewrite (for_items_pure _ (fun k acc s => Dict.setitem k (section_doc s) acc))
    by (intros; reflexivity).
  cbn [result final printed]. destruct c. eexists. reflexivity.
Qed.

Lemma save_data_run m :
  exists doc,
    CourseManager.save_data m
    = Outcome (inr tt) (CourseManager.mk (CourseManager.courses m) (Some doc)) [].
Proof.
  unfold CourseManager.save_data.
  assert (H : exists data,
             CourseManager.on_courses
               (Dict.for_items
                  (fun name acc =>
                     course <- Course.to_dict ;;
                     ret (Dict.setitem name course acc))
                  Dict.empty) m
             = Outcome (inr data) m []).
  { unfold CourseManager.on_courses, within.
    assert (Hloop : forall d acc, exists data,
               Dict.for_items
                 (fun name acc =>
                    course <- Course.to_dict ;;
                    ret (Dict.setitem (V := value num) name course acc))
                 acc d
               = Outcome (num := num) (inr data) d []).
    { induction d as [|[k c] d IH]; intros acc; simpl.
      - now eexists.
      - destruct (course_to_dict_total c) as [doc Hdoc].
        rewrite (bind_returns _ _ c c doc Hdoc). cbn [ret result final printed].
        destruct (IH (Dict.setitem k doc acc)) as [data Hdata].
        rewrite Hdata. now eexists. }
    destruct (Hloop (CourseManager.courses m) Dict.empty) as [data Hdata].
    rewrite Hdata. destruct m. now eexists. }
  destruct H as [data H].
  rewrite (bind_returns _ _ m m data H).
  rewrite (bind_returns _ _ m m m) by reflexivity.
  now eexists.
Qed.

Lemma add_course_run c m :
  exists doc,
    CourseManager.add_course c m
    = Outcome (inr tt)
        (CourseManager.mk
           (Dict.setitem (Course.name c) c (CourseManager.courses m))
           (Some doc))
        [].
Proof.
  unfold CourseManager.add_course.
  rewrite (bind_returns _ _ m
             (CourseManager.mk
                (Dict.setitem (Course.name c) c (CourseManager.courses m))
                (CourseManager.data_file m)) tt) by reflexivity.
  apply save_data_run.
Qed.

End Manager.

(** C8. [CourseManager.get_course_by_index i] returns the [i]-th course of
    the listing when [0 <= i < count] and [None] for every other index, so
    for every index when there is no course; the manager is left as it
    was. The listing is in insertion order: a course added under a new
    name is found at index [count], and the courses before it stay where
    they were. *)
Theorem get_course_by_index_in_range_or_none {num} {N : PyNum num}
  (m : CourseManager.t num) (i : Z) :
  final (CourseManager.get_course_by_index i m) = m
  /\ printed (CourseManager.get_course_by_index i m) = []
  /\ ((0 <= i < len (listing m))%Z ->
      exists c, nth_error (listing m) (Z.to_nat i) = Some c
                /\ result (CourseManager.get_course_by_index i m)
                   = inr (Some c))
  /\ (~ (0 <= i < len (listing m))%Z ->
      result (CourseManager.get_course_by_index i m) = inr None)
  /\ (CourseManager.courses m = Dict.empty ->
      result (CourseManager.get_course_by_index i m) = inr None)
  /\ (forall c,
        Dict.lookup (Course.name c) (CourseManager.courses m) = None ->
        result (CourseManager.add_course c m) = inr tt
        /\ result (CourseManager.get_course_by_index (len (listing m))
                     (final (CourseManager.add_course c m)))
           = inr (Some c)
        /\ ((0 <= i < len (listing m))%Z ->
            result (CourseManager.get_course_by_index i
                      (final (CourseManager.add_course c m)))
            = result (CourseManager.get_course_by_index i m))).
Proof.
  rewrite get_course_by_index_run. cbn [result final printed].
  split; [reflexivity | split; [reflexivity | split; [|split; [|split]]]].
  - intros Hi.
    destruct (list_getitem_in_range (num := num) (listing m) i m Hi)
      as (c & Hc & _).
    exists c. split; [exact Hc|].
    destruct Hi as [H0 H1]. apply Z.leb_le in H0. apply Z.ltb_lt in H1.
    now rewrite H0, H1, Hc.
  - intros Hi.
    destruct (0 <=? i)%Z eqn:E0; [|reflexivity].
    destruct (i <? len (listing m))%Z eqn:E1; [|reflexivity].
    apply Z.leb_le in E0. apply Z.ltb_lt in E1. lia.
  - intros He. unfold listing. rewrite He.
    destruct (0 <=? i)%Z; [|reflexivity].
    destruct (i <? len (Dict.values (@Dict.empty (Course.t num))))%Z eqn:E1;
      [|reflexivity].
    apply Z.ltb_lt in E1. destruct (Z.to_nat i); reflexivity.
  - intros c Hnew. destruct (add_course_run c m) as [doc Hrun].
    rewrite Hrun. cbn [result final]. rewrite !get_course_by_index_run.
    cbn [result]. unfold listing. cbn [CourseManager.courses].
    rewrite (setitem_absent _ c _ Hnew).
    unfold Dict.values, len. rewrite map_app, length_app. simpl List.length.
    split; [reflexivity | split].
    + replace (0 <=? Z.of_nat (List.length (map snd (CourseManager.courses m))))%Z
        with true by (symmetry; apply Z.leb_le; lia).
      replace (Z.of_nat (List.length (map snd (CourseManager.courses m)))
               <? Z.of_nat (List.length (map snd (CourseManager.courses m)) + 1))%Z
        with true by (symmetry; apply Z.ltb_lt; lia).
      rewrite Nat2Z.id. simpl andb. f_equal.
      rewrite nth_error_app2 by lia. now rewrite Nat.sub_diag.
    + intros [H0 H1]. unfold listing, Dict.values, len in H1.
      replace (0 <=? i)%Z with true by (symmetry; apply Z.leb_le; lia).
      replace (i <? Z.of_nat (List.length (map snd (CourseManager.courses m)) + 1))%Z
        with true by (symmetry; apply Z.ltb_lt; lia).
      replace (i <? Z.of_nat (List.length (map snd (CourseManager.courses m))))%Z
        with true by (symmetry; apply Z.ltb_lt; lia).
      simpl andb. f_equal. apply nth_error_app1. lia.
Qed.

(** ** The theorems at work on the scenario *)

Lemma current_grade_witness :
  exists q,
    result (Course.calculate_current_grade (algorithms (num := Q)))
    = inr (Some q)
    /\ q == graded_score algorithms / graded_weight algorithms.
Proof.
  apply (proj2 (proj2 (proj2 (proj2
           (current_grade_none_or_weighted_mean algorithms))))).
  intros H. vm_compute in H. discriminate H.
Defined.

Lemma overall_grade_witness :
  contribution (Section_.mk "Exam" 60 []) == 0.
Proof.
  apply (proj1 (proj2 (proj2 (overall_grade_sum algorithms)))).
  - simpl. right. left. reflexivity.
  - reflexivity.
Defined.

Lemma average_witness :
  exists q,
    result (Section_.average (Section_.mk "HW" 40 [80; 90])) = inr q
    /\ q == mean [80; 90].
Proof.
  apply (proj2 (proj2 (proj2
           (average_mean_or_sentinel (Section_.mk "HW" 40 [80; 90]))))).
  simpl. discriminate.
Defined.

Lemma letter_grade_witness :
  result (Course.determine_letter_grade 85 (algorithms (num := Q)))
  = inr "B"%string.
Proof.
  apply (proj1 (proj2 (proj2 (proj2
           (proj1 letter_grade_thresholds algorithms 85))))).
  split; [discriminate | reflexivity].
Defined.

Lemma add_section_witness :
  Dict.lookup "HW"
    (Course.sections
       (final (Course.add_section "HW" 10 (algorithms (num := Q)))))
  = Some (Section_.mk "HW" 10 [80; 90])
  /\ Dict.keys
       (Course.sections (final (Course.add_section "HW" 10 algorithms)))
     = ["HW"; "Exam"]%string
  /\ printed (Course.add_section "HW" 10 algorithms)
     = [SectionExists "HW" "Algorithms" 10].
Proof.
  apply (proj1 (proj2 (proj2 (proj2
           (add_section_updates_or_creates algorithms "HW" 10))))
           (Section_.mk "HW" 40 [80; 90])).
  reflexivity.
Defined.

Lemma grade_to_absent_section_witness :
  final (Course.add_assignment_grade "Quiz" 70 (algorithms (num := Q)))
  = algorithms
  /\ printed (Course.add_assignment_grade "Quiz" 70 algorithms)
     = [SectionMissing "Quiz" "Algorithms"]
  /\ final (Course.update_section_weight "Quiz" 5 algorithms) = algorithms.
Proof.
  apply (proj1 (proj2 (proj2
           (grade_to_absent_section_is_noop algorithms "Quiz" 70 5)))).
  reflexivity.
Defined.

Lemma get_course_by_index_witness :
  result (CourseManager.get_course_by_index 0
            (CourseManager.mk (num := Q) Dict.empty None))
  = inr None.
Proof.
  apply (proj1 (proj2 (proj2 (proj2 (proj2
           (get_course_by_index_in_range_or_none
              (CourseManager.mk Dict.empty None) 0)))))).
  reflexivity.
Defined.


(** Division does raise on a zero divisor, and an index below zero does
    reach into a list: the guards of the program are what the results
    above rest on. *)
Lemma truediv_by_zero (x : Q) (st : unit) :
  result (truediv x 0 st) = inl ZeroDivisionError.
Proof. reflexivity. Qed.

Lemma list_getitem_negative :
  result (list_getitem (num := Q) ["a"; "b"; "c"]%string (-1) tt)
  = inr "c"%string.
Proof. reflexivity. Qed.

(** ** An ungraded section in binary64 *)

Lemma SFcompare_refl (x : spec_float) :
  x <> S754_nan -> SFcompare x x = Some Eq.
Proof.
  destruct x as [s|s| |s m e]; intros H; try (destruct s; reflexivity);
    [congruence|].
  destruct s; simpl; rewrite Z.compare_refl;
    change (Pos.compare_cont Eq m m) with (Pos.compare m m);
    now rewrite Pos.compare_refl.
Qed.

Lemma is_finite_shape (y : float) :
  is_finite y = true ->
  (exists s, Prim2SF y = S754_zero s) \/ (exists s m e, Prim2SF y = S754_finite s m e).
Proof.
  unfold is_finite, is_nan, is_infinity. rewrite !FloatAxioms.eqb_spec, FloatAxioms.abs_spec.
  destruct (Prim2SF y) as [s|s| |s m e]; intros H.
  - left. now exists s.
  - exfalso. destruct s; vm_compute in H; discriminate.
  - exfalso. vm_compute in H. discriminate.
  - right. now exists s, m, e.
Qed.

(** [0.0 * y == 0] for a finite [y]. *)
Lemma binary64_zero_times (y : float) :
  is_finite y = true -> PrimFloat.eqb (PrimFloat.mul 0 y) 0 = true.
Proof.
  intros H. rewrite FloatAxioms.eqb_spec, FloatAxioms.mul_spec.
  destruct (is_finite_shape y H) as [[s ->] | (s & m & e & ->)];
    destruct s; reflexivity.
Qed.

(** [x + z == x] when [z == 0] and [x] is a number. *)
Lemma binary64_plus_zero (x z : float) :
  PrimFloat.eqb z 0 = true -> is_nan x = false ->
  PrimFloat.eqb (PrimFloat.add x z) x = true.
Proof.
  unfold is_nan. rewrite !FloatAxioms.eqb_spec, FloatAxioms.add_spec. unfold SF64add.
  change (Prim2SF 0) with (S754_zero false).
  destruct (Prim2SF z) as [sz|sz| |sz mz ez]; intros Hz; try discriminate.
  - intros Hx.
    destruct (Prim2SF x) as [sx|sx| |sx mx ex] eqn:Ex.
    + destruct sx, sz; reflexivity.
    + destruct sx; reflexivity.
    + discriminate.
    + unfold SFadd, SFeqb. rewrite SFcompare_refl; [reflexivity | discriminate].
  - destruct sz; discriminate.
  - destruct sz; discriminate.
Qed.

Lemma for_items_app {num V Acc} (body : string -> Acc -> Py num V Acc)
  (d d' : Dict.t V) (acc : Acc) :
  Dict.for_items body acc (d ++ d')
  = match result (Dict.for_items body acc d) with
    | inl e =>
        Outcome (inl e) (final (Dict.for_items body acc d) ++ d')
          (printed (Dict.for_items body acc d))
    | inr acc' =>
        Outcome (result (Dict.for_items body acc' d'))
          (final (Dict.for_items body acc d)
           ++ final (Dict.for_items body acc' d'))
          (printed (Dict.for_items body acc d)
           ++ printed (Dict.for_items body acc' d'))
    end.
Proof.
  revert acc. induction d as [|[k v] d IH]; intros acc; simpl.
  - destruct (Dict.for_items body acc d'); reflexivity.
  - destruct (result (body k acc v)) as [e|acc'] eqn:E; cbn [result final printed].
    + reflexivity.
    + rewrite IH.
      destruct (result (Dict.for_items body acc' d)); cbn [result final printed];
        [reflexivity|].
      now rewrite app_assoc.
Qed.

(** In binary64, a section with no grade and a finite weight, added after
    the others, leaves the overall grade equal ([==]) to what it was. A
    weight of infinity or NaN does not: [0.0 * inf] is NaN. *)
Lemma binary64_ungraded_section (n k : string)
  (d : Dict.t (Section_.t float)) (s : Section_.t float) (r : float) :
  Section_.grades s = [] ->
  is_finite (PrimFloat.div (Section_.weight s) 100) = true ->
  is_nan r = false ->
  result (Course.calculate_overall_grade (Course.mk n d)) = inr r ->
  exists r',
    result (Course.calculate_overall_grade (Course.mk n (d ++ [(k, s)])))
    = inr r'
    /\ PrimFloat.eqb r' r = true.
Proof.
  intros Hg Hw Hr.
  unfold Course.calculate_overall_grade, Course.on_sections, within, Dict.for_values.
  cbn [Course.sections result]. rewrite for_items_app.
  intros ->. cbn [result].
  destruct s as [sn w g]. cbn [Section_.grades Section_.weight] in Hg, Hw. subst g.
  eexists. split; [reflexivity|].
  apply binary64_plus_zero; [|exact Hr].
  now apply binary64_zero_times.
Qed.

Lemma binary64_infinite_weight :
  result (Course.calculate_overall_grade
            (Course.mk "C" [("Late", Section_.mk "Late" infinity [])]%string))
  = inr nan.
Proof. vm_compute. reflexivity. Qed.

(** ** Saving and loading *)

Lemma for_items_pure_in {num V Acc} (body : string -> Acc -> Py num V Acc)
  (f : string -> Acc -> V -> Acc) (d : Dict.t V) :
  (forall k acc v, In (k, v) d -> body k acc v = Outcome (inr (f k acc v)) v []) ->
  forall acc,
    Dict.for_items body acc d
    = Outcome (inr (fold_left (fun a kv => f (fst kv) a (snd kv)) d acc)) d [].
Proof.
  induction d as [|[k v] d IH]; intros Hbody acc; simpl; [reflexivity|].
  rewrite Hbody by now left. simpl.
  rewrite IH by (intros; apply Hbody; now right). reflexivity.
Qed.

Section SaveLoad.
Context {num : Type} {N : PyNum num}.

(** A manager whose dictionaries have every key once. *)
Definition manager_wf (m : CourseManager.t num) : Prop :=
  Dict.wf (CourseManager.courses m)
  /\ forall k c, In (k, c) (CourseManager.courses m) -> Dict.wf (Course.sections c).

(** The document [save_data] writes. *)
Definition manager_doc (m : CourseManager.t num) : value num :=
  VDict (map (fun kv => (fst kv, course_doc (snd kv))) (CourseManager.courses m)).

Lemma save_data_doc (m : CourseManager.t num) :
  manager_wf m ->
  CourseManager.save_data m
  = Outcome (inr tt)
      (CourseManager.mk (CourseManager.courses m) (Some (manager_doc m))) [].
Proof.
  intros [Hwf Hsec]. unfold CourseManager.save_data.
  rewrite (bind_returns _ _ m m
             (map (fun kv => (fst kv, course_doc (snd kv)))
                (CourseManager.courses m))).
  - now rewrite (bind_returns _ _ m m m).
  - unfold CourseManager.on_courses, within.
    rewrite (for_items_pure_in _ (fun k acc c => Dict.setitem k (course_doc c) acc)).
    + cbn [result final printed].
      rewrite (fold_setitem (fun _ => course_doc)) by exact Hwf.
      destruct m; reflexivity.
    + intros k acc c Hin.
      now rewrite (bind_returns _ _ c c (course_doc c))
        by (apply course_to_dict_run; eapply Hsec; eassumption).
Qed.

Lemma load_entries (d : Dict.t (Course.t num)) (m : CourseManager.t num) :
  (forall k c, In (k, c) d -> Dict.wf (Course.sections c)) ->
  for_each
    (fun (_ : unit) '(name, course_data) =>
       course <- Course.from_dict course_data ;;
       CourseManager.on_courses (Dict.assign name course))
    (map (fun kv => (fst kv, course_doc (snd kv))) d) tt m
  = Outcome (inr tt)
      (CourseManager.mk
         (fold_left (fun a kv => Dict.setitem (fst kv) (snd kv) a) d
            (CourseManager.courses m))
         (CourseManager.data_file m))
      [].
Proof.
  revert m. induction d as [|[k c] d IH]; intros m Hsec; simpl.
  - now destruct m.
  - rewrite (bind_returns _ _ m
               (CourseManager.mk (Dict.setitem k c (CourseManager.courses m))
                  (CourseManager.data_file m)) tt).
    + rewrite IH by (intros; eapply Hsec; right; eassumption). reflexivity.
    + rewrite (bind_returns _ _ m m c); [reflexivity|].
      apply course_from_dict_doc. eapply Hsec. now left.
Qed.

(** Loading what was saved gives back the courses: a manager started on
    the file another one wrote has the same courses in the same order. *)
Lemma load_after_save (m : CourseManager.t num) :
  manager_wf m ->
  CourseManager.init
    (CourseManager.data_file (final (CourseManager.save_data m)))
  = Outcome (inr tt)
      (CourseManager.mk (CourseManager.courses m) (Some (manager_doc m))) [].
Proof.
  intros Hm. rewrite (save_data_doc m Hm). cbn [final CourseManager.data_file].
  destruct Hm as [Hwf Hsec].
  unfold CourseManager.init, CourseManager.load_data.
  set (m0 := CourseManager.mk Dict.empty (Some (manager_doc m))).
  rewrite (bind_returns _ _ m0 m0 m0) by reflexivity.
  cbn [m0 CourseManager.data_file]. unfold manager_doc. fold (manager_doc m). fold m0.
  rewrite (bind_returns _ _ m0 m0
             (map (fun kv => (fst kv, course_doc (snd kv)))
                (CourseManager.courses m))) by reflexivity.
  rewrite (load_entries _ _ Hsec). cbn [CourseManager.courses CourseManager.data_file].
  rewrite (fold_setitem (fun _ c => c)) by exact Hwf.
  simpl. do 2 f_equal. rewrite <- (map_id (CourseManager.courses m)) at 2.
  apply map_ext. now intros [? ?].
Qed.

End SaveLoad.

(** ** The sentinel and the zero weight in every number type *)

Lemma average_empty {num} {N : PyNum num} (n : string) (w : num) :
  Section_.average (Section_.mk n w [])
  = Outcome (inr (of_int 0)) (Section_.mk n w []) [].
Proof. reflexivity. Qed.

Lemma zero_weight_binary64 :
  result (Course.calculate_current_grade
            (Course.mk "Pass/Fail"
               [("Attendance", Section_.mk "Attendance" 0%float [50%float])]%string))
  = inr None.
Proof. vm_compute. reflexivity. Qed.

(** The division of [calculate_current_grade] sits behind the very test it
    would fail on, whatever the numbers are. *)
Lemma guarded_division_returns {num} {N : PyNum num} {St}
  (total_score total_weight : num) (st : St) :
  exists r,
    (if neqb total_weight (of_int 0)
     then ret None
     else grade <- truediv total_score total_weight ;; ret (Some grade)) st
    = Outcome (num := num) (inr r) st [].
Proof.
  unfold bind, truediv.
  destruct (neqb total_weight (of_int 0)); now eexists.
Qed.

(** * More of the program *)

(** ** Recording grades *)

Lemma add_grade_run {num} (s : Section_.t num) (g : num) :
  Section_.add_grade g s
  = Outcome (inr tt)
      (Section_.mk (Section_.name s) (Section_.weight s) (Section_.grades s ++ [g]))
      [].
Proof. reflexivity. Qed.

(** X1. Grades recorded one after the other end up behind the grades the
    section had, in the order they were recorded; name and weight stay. *)
Theorem add_grades_in_order {num} (s : Section_.t num) (gs : list num) :
  for_each (fun _ g => Section_.add_grade g) gs tt s
  = Outcome (inr tt)
      (Section_.mk (Section_.name s) (Section_.weight s) (Section_.grades s ++ gs))
      [].
Proof.
  revert s. induction gs as [|g gs IH]; intros s; simpl.
  - unfold ret. destruct s. cbn. now rewrite app_nil_r.
  - rewrite (bind_returns _ _ s _ tt (add_grade_run s g)), IH.
    cbn [Section_.name Section_.weight Section_.grades].
    now rewrite <- app_assoc.
Qed.

(** ** Editing a course *)

Section MoreDictFacts.
Context {V : Type}.
Implicit Types (d : Dict.t V) (k : string) (v : V).

Lemma setitem_setitem k v v' d :
  Dict.setitem k v (Dict.setitem k v' d) = Dict.setitem k v d.
Proof.
  induction d as [|[k0 v0] d IH]; simpl.
  - now rewrite String.eqb_refl.
  - destruct (String.eqb k k0) eqn:E; simpl; rewrite E; [reflexivity|].
    now rewrite IH.
Qed.

Lemma setitem_comm k k' v v' v0 v0' d :
  k <> k' ->
  Dict.lookup k d = Some v0 -> Dict.lookup k' d = Some v0' ->
  Dict.setitem k v (Dict.setitem k' v' d)
  = Dict.setitem k' v' (Dict.setitem k v d).
Proof.
  intros Hne. induction d as [|[k1 v1] d IH]; simpl; [discriminate|].
  destruct (String.eqb k k1) eqn:E, (String.eqb k' k1) eqn:E'; simpl;
    rewrite ?E, ?E'; try reflexivity.
  - apply String.eqb_eq in E, E'. congruence.
  - intros H H'. now rewrite IH.
Qed.

Lemma In_setitem k v k' v' d :
  In (k', v') (Dict.setitem k v d) -> (k', v') = (k, v) \/ In (k', v') d.
Proof.
  induction d as [|[k0 v0] d IH]; simpl.
  - intros [H | []]. now left.
  - destruct (String.eqb k k0) eqn:E; simpl.
    + apply String.eqb_eq in E. subst k0. intros [H | H]; [left | right; right];
        congruence.
    + intros [H | H]; [right; now left|].
      destruct (IH H) as [H' | H']; [now left | right; now right].
Qed.

Lemma wf_setitem k v d : Dict.wf d -> Dict.wf (Dict.setitem k v d).
Proof.
  unfold Dict.wf. destruct (Dict.lookup k d) as [v0|] eqn:E.
  - now rewrite (keys_setitem_present k v v0 d E).
  - rewrite (setitem_absent k v d E). unfold Dict.keys. rewrite map_app. simpl.
    intros H. apply NoDup_app; [exact H | repeat constructor; auto |].
    intros x Hx [<- | []]. now apply lookup_None_keys in E.
Qed.

Lemma lookup_In_wf k v d : Dict.wf d -> In (k, v) d -> Dict.lookup k d = Some v.
Proof.
  unfold Dict.wf, Dict.keys. induction d as [|[k0 v0] d IH]; simpl; [tauto|].
  intros Hnd [H | H].
  - injection H as -> ->. now rewrite String.eqb_refl.
  - apply NoDup_cons_iff in Hnd. destruct Hnd as [Hnotin Hnd].
    destruct (String.eqb k k0) eqn:E; [|now apply IH].
    apply String.eqb_eq in E. subst k0. exfalso. apply Hnotin.
    now apply (in_map fst) in H.
Qed.

End MoreDictFacts.

(** A computation that returns after printing, followed by another. *)
Lemma bind_prints {num St A B} (m : Py num St A)
  (k : A -> Py num St B) (s s' : St) (a : A) (o : list (notice num)) :
  m s = Outcome (inr a) s' o ->
  bind m k s
  = Outcome (result (k a s')) (final (k a s')) (o ++ printed (k a s')).
Proof. intros H. unfold bind. now rewrite H. Qed.

Section MoreCourseEdits.
Context {num : Type} {N : PyNum num}.
Implicit Types (c : Course.t num) (s : Section_.t num).

(** X4. [Course.update_section_weight] on a name the course has replaces
    that section's weight and keeps its name and grades, the other
    sections, the order of the sections and the course name; it prints
    nothing. *)
Theorem update_section_weight_replaces c (section_name : string)
  (new_weight : num) s :
  Dict.lookup section_name (Course.sections c) = Some s ->
  result (Course.update_section_weight section_name new_weight c) = inr tt
  /\ printed (Course.update_section_weight section_name new_weight c) = []
  /\ Dict.lookup section_name
       (Course.sections
          (final (Course.update_section_weight section_name new_weight c)))
     = Some (Section_.mk (Section_.name s) new_weight (Section_.grades s))
  /\ (forall k, k <> section_name ->
        Dict.lookup k
          (Course.sections
             (final (Course.update_section_weight section_name new_weight c)))
        = Dict.lookup k (Course.sections c))
  /\ Dict.keys
       (Course.sections
          (final (Course.update_section_weight section_name new_weight c)))
     = Dict.keys (Course.sections c)
  /\ Course.name (final (Course.update_section_weight section_name new_weight c))
     = Course.name c.
Proof.
  intros H. rewrite (update_section_weight_found c section_name new_weight s H).
  cbn [result final printed].
  destruct (with_section_frame section_name
              (Section_.mk (Section_.name s) new_weight (Section_.grades s)) c)
    as (H1 & H2 & H3).
  split; [reflexivity | split; [reflexivity | split; [exact H1|]]].
  split; [exact H2 | split; [|exact H3]].
  now apply with_section_keys with (s0 := s).
Qed.

(** X5. On a name the course has, [Course.add_section] changes the course
    exactly as [Course.update_section_weight] does; only the first prints
    a notice. *)
Theorem add_section_existing_is_update c (name : string) (weight : num) s :
  Dict.lookup name (Course.sections c) = Some s ->
  final (Course.add_section name weight c)
  = final (Course.update_section_weight name weight c)
  /\ printed (Course.add_section name weight c)
     = [SectionExists name (Course.name c) weight]
  /\ printed (Course.update_section_weight name weight c) = [].
Proof.
  intros H. rewrite (add_section_existing c name weight s H).
  rewrite (update_section_weight_found c name weight s H).
  repeat split.
Qed.

(** X6. Of two [Course.add_section] calls with the same name the last one
    decides the weight, whether the name was there before or not: the
    course is as if only the second call had been made. *)
Theorem add_section_last_weight_wins c (name : string) (w1 w2 : num) :
  result ((Course.add_section name w1 ;; Course.add_section name w2) c) = inr tt
  /\ final ((Course.add_section name w1 ;; Course.add_section name w2) c)
     = final (Course.add_section name w2 c).
Proof.
  destruct (Dict.lookup name (Course.sections c)) as [s|] eqn:E.
  - rewrite (bind_prints _ _ c _ _ _ (add_section_existing c name w1 s E)).
    destruct (with_section_frame name
                (Section_.mk (Section_.name s) w1 (Section_.grades s)) c)
      as (H1 & _ & _).
    rewrite (add_section_existing _ name w2 _ H1).
    rewrite (add_section_existing c name w2 s E).
    cbn [result final printed Section_.name Section_.grades].
    split; [reflexivity|]. unfold with_section.
    cbn [Course.name Course.sections]. now rewrite setitem_setitem.
  - rewrite (bind_prints _ _ c _ _ _ (add_section_new c name w1 E)).
    assert (H1 : Dict.lookup name
                   (Course.sections
                      (Course.mk (Course.name c)
                         (Course.sections c ++ [(name, Section_.mk name w1 [])])))
                 = Some (Section_.mk name w1 [])).
    { cbn [Course.sections]. rewrite (lookup_app_absent _ _ _ E). simpl.
      now rewrite String.eqb_refl. }
    rewrite (add_section_existing _ name w2 _ H1).
    rewrite (add_section_new c name w2 E).
    cbn [result final printed Section_.name Section_.grades].
    split; [reflexivity|]. unfold with_section.
    cbn [Course.name Course.sections].
    rewrite <- (setitem_absent name (Section_.mk name w1 []) _ E).
    rewrite setitem_setitem. now rewrite (setitem_absent _ _ _ E).
Qed.

End MoreCourseEdits.

(** ** Any sequence of edits *)

(** The three calls the course menu makes on a course. *)
Inductive edit (num : Type) : Type :=
| AddSection (name : string) (weight : num)
| AddGrade (section_name : string) (grade : num)
| UpdateWeight (section_name : string) (new_weight : num).
Arguments AddSection {num} name weight.
Arguments AddGrade {num} section_name grade.
Arguments UpdateWeight {num} section_name new_weight.

Section Edits.
Context {num : Type} {N : PyNum num}.
Implicit Types (c : Course.t num) (s : Section_.t num).

Definition apply_edit (e : edit num) : Py num (Course.t num) unit :=
  match e with
  | AddSection name weight => Course.add_section name weight
  | AddGrade section_name grade => Course.add_assignment_grade section_name grade
  | UpdateWeight section_name new_weight =>
      Course.update_section_weight section_name new_weight
  end.

Definition apply_edits (es : list (edit num)) : Py num (Course.t num) unit :=
  for_each (fun _ e => apply_edit e) es tt.

(** Every section name once, and every section stored under its own name. *)
Definition sound c : Prop :=
  Dict.wf (Course.sections c)
  /\ forall k s, In (k, s) (Course.sections c) -> Section_.name s = k.

(** [c'] has the name of [c] and every section of [c], each with the
    grades it had in [c] followed by more. *)
Definition grows c c' : Prop :=
  Course.name c' = Course.name c
  /\ forall k s,
       Dict.lookup k (Course.sections c) = Some s ->
       exists s' more,
         Dict.lookup k (Course.sections c') = Some s'
         /\ Section_.name s' = Section_.name s
         /\ Section_.grades s' = Section_.grades s ++ more.

Lemma grows_refl c : grows c c.
Proof.
  split; [reflexivity|]. intros k s H. exists s, []. now rewrite app_nil_r.
Qed.

Lemma grows_trans c1 c2 c3 : grows c1 c2 -> grows c2 c3 -> grows c1 c3.
Proof.
  intros [Hn Hs] [Hn' Hs']. split; [congruence|].
  intros k s H. destruct (Hs k s H) as (s2 & m2 & H2 & Hname2 & Hg2).
  destruct (Hs' k s2 H2) as (s3 & m3 & H3 & Hname3 & Hg3).
  exists s3, (m2 ++ m3). split; [exact H3 | split; [congruence|]].
  now rewrite Hg3, Hg2, app_assoc.
Qed.

Lemma sound_with_section (k : string) s s' c :
  sound c -> Dict.lookup k (Course.sections c) = Some s ->
  Section_.name s' = Section_.name s ->
  sound (with_section k s' c).
Proof.
  intros [Hwf Hkey] H Hname. split.
  - now apply wf_setitem.
  - intros k0 s0 Hin. apply In_setitem in Hin. destruct Hin as [Heq | Hin].
    + injection Heq as -> ->. rewrite Hname. apply Hkey. now apply lookup_In.
    + now apply Hkey.
Qed.

Lemma grows_with_section (k : string) s s' (more : list num) c :
  Dict.lookup k (Course.sections c) = Some s ->
  Section_.name s' = Section_.name s ->
  Section_.grades s' = Section_.grades s ++ more ->
  grows c (with_section k s' c).
Proof.
  intros H Hname Hg. destruct (with_section_frame k s' c) as (H1 & H2 & H3).
  split; [exact H3|]. intros k0 s0 H0.
  destruct (String.eqb k0 k) eqn:E.
  - apply String.eqb_eq in E. subst k0. exists s', more. split; [exact H1|].
    split; congruence.
  - apply String.eqb_neq in E. exists s0, []. rewrite (H2 k0 E), app_nil_r.
    now repeat split.
Qed.

Lemma apply_edit_step (e : edit num) c :
  sound c ->
  exists c' o, apply_edit e c = Outcome (inr tt) c' o /\ sound c' /\ grows c c'.
Proof.
  intros Hc. destruct e as [name weight | name grade | name weight]; simpl;
    destruct (Dict.lookup name (Course.sections c)) as [s|] eqn:E.
  - rewrite (add_section_existing c name weight s E). eexists _, _.
    split; [reflexivity | split].
    + now apply sound_with_section with (s := s).
    + apply grows_with_section with (s := s) (more := []); trivial.
      cbn. now rewrite app_nil_r.
  - rewrite (add_section_new c name weight E). eexists _, _.
    split; [reflexivity | split].
    + destruct Hc as [Hwf Hkey]. cbn [Course.sections].
      rewrite <- (setitem_absent name (Section_.mk name weight []) _ E). split.
      * now apply wf_setitem.
      * intros k0 s0 Hin. apply In_setitem in Hin.
        destruct Hin as [Heq | Hin]; [|now apply Hkey].
        injection Heq as Hk Hs. now subst.
    + split; [reflexivity|]. intros k0 s0 H0. exists s0, [].
      cbn [Course.sections]. rewrite app_nil_r. split; [|now split].
      rewrite <- (setitem_absent name (Section_.mk name weight []) _ E).
      rewrite lookup_setitem_other; [exact H0|]. intros ->. congruence.
  - rewrite (add_assignment_grade_found c name grade s E). eexists _, _.
    split; [reflexivity | split].
    + now apply sound_with_section with (s := s).
    + now apply grows_with_section with (s := s) (more := [grade]).
  - rewrite (add_assignment_grade_missing c name grade E). eexists _, _.
    split; [reflexivity | split; [exact Hc | apply grows_refl]].
  - rewrite (update_section_weight_found c name weight s E). eexists _, _.
    split; [reflexivity | split].
    + now apply sound_with_section with (s := s).
    + apply grows_with_section with (s := s) (more := []); trivial.
      cbn. now rewrite app_nil_r.
  - rewrite (update_section_weight_missing c name weight E). eexists _, _.
    split; [reflexivity | split; [exact Hc | apply grows_refl]].
Qed.

(** X7. Whatever sequence of [add_section], [add_assignment_grade] and
    [update_section_weight] calls is made on a course whose sections are
    stored once each and under their own names, no call raises, the course
    keeps its name and that shape, no section is removed or renamed, and
    the grades a section had stay where they were, new ones behind them. *)
Theorem edits_keep_sections (es : list (edit num)) c :
  sound c ->
  exists c' o,
    apply_edits es c = Outcome (inr tt) c' o /\ sound c' /\ grows c c'.
Proof.
  unfold apply_edits. revert c. induction es as [|e es IH]; intros c Hc.
  - exists c, []. split; [reflexivity | split; [exact Hc | apply grows_refl]].
  - destruct (apply_edit_step e c Hc) as (c1 & o1 & Hrun & Hc1 & Hg1).
    destruct (IH c1 Hc1) as (c2 & o2 & Hrun2 & Hc2 & Hg2).
    exists c2, (o1 ++ o2). split; [|split; [exact Hc2|]].
    + simpl. rewrite (bind_prints _ _ c c1 tt o1 Hrun), Hrun2. reflexivity.
    + now apply grows_trans with c1.
Qed.

End Edits.

(** ** Grades and weights do not get in each other's way *)

Section Commute.
Context {num : Type} {N : PyNum num}.
Implicit Types (c : Course.t num) (s : Section_.t num).

(** The course after [add_assignment_grade] and after
    [update_section_weight]. *)
Definition grade_added (n : string) (g : num) c : Course.t num :=
  match Dict.lookup n (Course.sections c) with
  | Some s =>
      with_section n
        (Section_.mk (Section_.name s) (Section_.weight s) (Section_.grades s ++ [g]))
        c
  | None => c
  end.

Definition weight_set (n : string) (w : num) c : Course.t num :=
  match Dict.lookup n (Course.sections c) with
  | Some s => with_section n (Section_.mk (Section_.name s) w (Section_.grades s)) c
  | None => c
  end.

Lemma add_assignment_grade_final (n : string) (g : num) c :
  result (Course.add_assignment_grade n g c) = inr tt
  /\ final (Course.add_assignment_grade n g c) = grade_added n g c.
Proof.
  unfold grade_added. destruct (Dict.lookup n (Course.sections c)) as [s|] eqn:E.
  - now rewrite (add_assignment_grade_found c n g s E).
  - now rewrite (add_assignment_grade_missing c n g E).
Qed.

Lemma update_section_weight_final (n : string) (w : num) c :
  result (Course.update_section_weight n w c) = inr tt
  /\ final (Course.update_section_weight n w c) = weight_set n w c.
Proof.
  unfold weight_set. destruct (Dict.lookup n (Course.sections c)) as [s|] eqn:E.
  - now rewrite (update_section_weight_found c n w s E).
  - now rewrite (update_section_weight_missing c n w E).
Qed.

Lemma bind_final {St A B} (m : Py num St A) (k : A -> Py num St B)
  (st : St) (a : A) :
  result (m st) = inr a ->
  result (bind m k st) = result (k a (final (m st)))
  /\ final (bind m k st) = final (k a (final (m st))).
Proof. intros H. unfold bind. now rewrite H. Qed.

Lemma grade_weight_swap (n n' : string) (g w : num) c :
  weight_set n' w (grade_added n g c) = grade_added n g (weight_set n' w c).
Proof.
  unfold weight_set, grade_added.
  destruct (String.eqb n n') eqn:En.
  - apply String.eqb_eq in En. subst n'.
    destruct (Dict.lookup n (Course.sections c)) as [s|] eqn:E.
    + unfold with_section. cbn [Course.name Course.sections].
      rewrite !lookup_setitem_same.
      cbn [Course.name Course.sections Section_.name Section_.weight Section_.grades].
      now rewrite !setitem_setitem.
    + now rewrite E.
  - apply String.eqb_neq in En.
    destruct (Dict.lookup n (Course.sections c)) as [s|] eqn:E;
      destruct (Dict.lookup n' (Course.sections c)) as [s'|] eqn:E'.
    + unfold with_section. cbn [Course.name Course.sections].
      rewrite (lookup_setitem_other n n') by exact En.
      rewrite (lookup_setitem_other n' n) by congruence.
      rewrite E, E'. cbn [Course.name Course.sections].
      f_equal. symmetry. now apply setitem_comm with (v0 := s) (v0' := s').
    + unfold with_section. cbn [Course.name Course.sections].
      rewrite (lookup_setitem_other n n') by exact En. now rewrite ?E, ?E'.
    + unfold with_section. cbn [Course.name Course.sections].
      rewrite (lookup_setitem_other n' n) by congruence. now rewrite ?E, ?E'.
    + now rewrite ?E, ?E'.
Qed.

(** X8. Recording a grade and changing a weight can be done in either
    order, in the same section or in two: neither call raises and the
    course ends up the same. *)
Theorem grade_and_weight_commute (n n' : string) (g w : num) c :
  result ((Course.add_assignment_grade n g ;;
           Course.update_section_weight n' w) c) = inr tt
  /\ result ((Course.update_section_weight n' w ;;
              Course.add_assignment_grade n g) c) = inr tt
  /\ final ((Course.add_assignment_grade n g ;;
             Course.update_section_weight n' w) c)
     = final ((Course.update_section_weight n' w ;;
               Course.add_assignment_grade n g) c).
Proof.
  destruct (add_assignment_grade_final n g c) as [R1 F1].
  destruct (update_section_weight_final n' w c) as [R2 F2].
  destruct (bind_final _ (fun _ => Course.update_section_weight n' w) c tt R1)
    as [R12 F12].
  destruct (bind_final _ (fun _ => Course.add_assignment_grade n g) c tt R2)
    as [R21 F21].
  rewrite R12, R21, F12, F21, F1, F2.
  destruct (update_section_weight_final n' w (grade_added n g c)) as [R3 F3].
  destruct (add_assignment_grade_final n g (weight_set n' w c)) as [R4 F4].
  rewrite R3, R4, F3, F4.
  split; [reflexivity | split; [reflexivity | apply grade_weight_swap]].
Qed.

End Commute.

(** ** Letter grades are monotone *)

(** How good a letter is. *)
Definition letter_rank (letter : string) : nat :=
  if String.eqb letter "A" then 4
  else if String.eqb letter "B" then 3
  else if String.eqb letter "C" then 2
  else if String.eqb letter "D" then 1
  else 0.

(** The letter [determine_letter_grade] returns, it being a pure function
    of the number. *)
Definition letter_of {num} {N : PyNum num} (x : num) : string :=
  if ngeb x (of_int 90) then "A"
  else if ngeb x (of_int 80) then "B"
  else if ngeb x (of_int 70) then "C"
  else if ngeb x (of_int 60) then "D"
  else "F".

Lemma determine_letter_grade_run {num} {N : PyNum num}
  (self : Course.t num) (x : num) :
  Course.determine_letter_grade x self = Outcome (inr (letter_of x)) self [].
Proof.
  unfold Course.determine_letter_grade, letter_of.
  repeat match goal with
    | |- context [if ?b then _ else _] => destruct b
    end; reflexivity.
Qed.

Lemma Qle_bool_mono (a x y : Q) :
  x <= y -> Qle_bool a x = true -> Qle_bool a y = true.
Proof.
  rewrite !Qle_bool_iff. intros Hxy Hax. now apply Qle_trans with x.
Qed.

Lemma letter_of_mono_exact (x y : Q) :
  x <= y -> (letter_rank (letter_of x) <= letter_rank (letter_of y))%nat.
Proof.
  intros Hxy. unfold letter_of.
  change (@ngeb Q Exact) with (fun x y => Qle_bool y x). cbv beta.
  pose proof (Qle_bool_mono (of_int 90) x y Hxy) as H90.
  pose proof (Qle_bool_mono (of_int 80) x y Hxy) as H80.
  pose proof (Qle_bool_mono (of_int 70) x y Hxy) as H70.
  pose proof (Qle_bool_mono (of_int 60) x y Hxy) as H60.
  destruct (Qle_bool (of_int 90) x); [rewrite H90 by reflexivity; cbn; lia|].
  destruct (Qle_bool (of_int 80) x);
    [rewrite H80 by reflexivity; destruct (Qle_bool (of_int 90) y); cbn; lia|].
  destruct (Qle_bool (of_int 70) x);
    [rewrite H70 by reflexivity;
     destruct (Qle_bool (of_int 90) y), (Qle_bool (of_int 80) y); cbn; lia|].
  destruct (Qle_bool (of_int 60) x);
    [rewrite H60 by reflexivity;
     destruct (Qle_bool (of_int 90) y), (Qle_bool (of_int 80) y),
       (Qle_bool (of_int 70) y); cbn; lia|].
  cbn. lia.
Qed.

Lemma letter_of_mono_binary64 (x y : float) :
  PrimFloat.leb x y = true ->
  (letter_rank (letter_of x) <= letter_rank (letter_of y))%nat.
Proof.
  intros Hxy. unfold letter_of.
  change (@ngeb float Binary64) with (fun x y => PrimFloat.leb y x). cbv beta.
  pose proof (fun a H => float_leb_trans a x y H Hxy) as Hmono.
  pose proof (Hmono (of_int 90)) as H90.
  pose proof (Hmono (of_int 80)) as H80.
  pose proof (Hmono (of_int 70)) as H70.
  pose proof (Hmono (of_int 60)) as H60.
  destruct (PrimFloat.leb (of_int 90) x); [rewrite H90 by reflexivity; cbn; lia|].
  destruct (PrimFloat.leb (of_int 80) x);
    [rewrite H80 by reflexivity; destruct (PrimFloat.leb (of_int 90) y); cbn; lia|].
  destruct (PrimFloat.leb (of_int 70) x);
    [rewrite H70 by reflexivity;
     destruct (PrimFloat.leb (of_int 90) y), (PrimFloat.leb (of_int 80) y);
     cbn; lia|].
  destruct (PrimFloat.leb (of_int 60) x);
    [rewrite H60 by reflexivity;
     destruct (PrimFloat.leb (of_int 90) y), (PrimFloat.leb (of_int 80) y),
       (PrimFloat.leb (of_int 70) y); cbn; lia|].
  cbn. lia.
Qed.

(** X12. A higher number never gets a worse letter: for [x <= y],
    [determine_letter_grade y] is at least as good as
    [determine_letter_grade x], on rationals and on binary64. *)
Theorem letter_grade_monotone :
  (forall (self : Course.t Q) (x y : Q),
      x <= y ->
      exists lx ly,
        result (Course.determine_letter_grade x self) = inr lx
        /\ result (Course.determine_letter_grade y self) = inr ly
        /\ (letter_rank lx <= letter_rank ly)%nat)
  /\ (forall (self : Course.t float) (x y : float),
         PrimFloat.leb x y = true ->
         exists lx ly,
           result (Course.determine_letter_grade x self) = inr lx
           /\ result (Course.determine_letter_grade y self) = inr ly
           /\ (letter_rank lx <= letter_rank ly)%nat).
Proof.
  split; intros self x y Hxy; rewrite !determine_letter_grade_run;
    exists (letter_of x), (letter_of y); cbn [result];
    (split; [reflexivity | split; [reflexivity|]]).
  - now apply letter_of_mono_exact.
  - now apply letter_of_mono_binary64.
Qed.

Lemma letter_grade_monotone_witness :
  exists lx ly,
    result (Course.determine_letter_grade 79 (algorithms (num := Q))) = inr lx
    /\ result (Course.determine_letter_grade 85 (algorithms (num := Q))) = inr ly
    /\ (letter_rank lx <= letter_rank ly)%nat.
Proof.
  apply (proj1 letter_grade_monotone algorithms 79 85). discriminate.
Defined.

(** ** Adding and listing courses *)

Section MoreManager.
Context {num : Type} {N : PyNum num}.
Implicit Types (m : CourseManager.t num) (c : Course.t num).

Lemma list_courses_run m :
  CourseManager.list_courses m
  = Outcome (inr (Dict.keys (CourseManager.courses m))) m [].
Proof. reflexivity. Qed.

(** X13. [CourseManager.add_course] never raises and stores the course
    under its name: a course of a new name goes last in the listing of
    names, a course of a name already there takes the place of the old
    one and the listing of names stays as it was; the courses under other
    names are not touched. *)
Theorem add_course_in_place_or_last m c :
  result (CourseManager.add_course c m) = inr tt
  /\ Dict.lookup (Course.name c)
       (CourseManager.courses (final (CourseManager.add_course c m)))
     = Some c
  /\ (forall k, k <> Course.name c ->
        Dict.lookup k
          (CourseManager.courses (final (CourseManager.add_course c m)))
        = Dict.lookup k (CourseManager.courses m))
  /\ (forall old,
        Dict.lookup (Course.name c) (CourseManager.courses m) = Some old ->
        result (CourseManager.list_courses (final (CourseManager.add_course c m)))
        = result (CourseManager.list_courses m))
  /\ (Dict.lookup (Course.name c) (CourseManager.courses m) = None ->
        result (CourseManager.list_courses (final (CourseManager.add_course c m)))
        = inr (Dict.keys (CourseManager.courses m) ++ [Course.name c])).
Proof.
  destruct (add_course_run c m) as [doc Hrun]. rewrite Hrun.
  cbn [result final]. rewrite !list_courses_run.
  cbn [result CourseManager.courses].
  split; [reflexivity | split; [apply lookup_setitem_same | split; [|split]]].
  - intros k Hk. apply lookup_setitem_other. congruence.
  - intros old Hold. f_equal. exact (keys_setitem_present _ c old _ Hold).
  - intros Hnew. f_equal. rewrite (setitem_absent _ c _ Hnew).
    unfold Dict.keys. now rewrite map_app.
Qed.

(** Every course is stored under its own name. *)
Definition named_courses m : Prop :=
  forall k c, In (k, c) (CourseManager.courses m) -> Course.name c = k.

Lemma named_courses_add m c :
  named_courses m -> named_courses (final (CourseManager.add_course c m)).
Proof.
  intros H. destruct (add_course_run c m) as [doc Hrun]. rewrite Hrun.
  cbn [final]. intros k c0 Hin. cbn [CourseManager.courses] in Hin.
  apply In_setitem in Hin. destruct Hin as [Heq | Hin]; [|now apply H].
  injection Heq as Hk Hc. now subst.
Qed.

(** X14. In a manager filled by [add_course], every course is stored
    under its own name and [add_course] keeps it so; then the name at
    position [i] of [list_courses] is the name of the course
    [get_course_by_index i] returns, for every position of the listing. *)
Theorem index_matches_listing m c (i : Z) :
  named_courses m ->
  named_courses (final (CourseManager.add_course c m))
  /\ ((0 <= i < len (listing m))%Z ->
      exists found names,
        result (CourseManager.get_course_by_index i m) = inr (Some found)
        /\ result (CourseManager.list_courses m) = inr names
        /\ nth_error names (Z.to_nat i) = Some (Course.name found)).
Proof.
  intros Hnamed. split; [now apply named_courses_add|].
  intros Hi. rewrite get_course_by_index_run, list_courses_run. cbn [result].
  destruct (list_getitem_in_range (num := num) (listing m) i m Hi)
    as (found & Hfound & _).
  destruct Hi as [H0 H1]. apply Z.leb_le in H0. apply Z.ltb_lt in H1.
  rewrite H0, H1, Hfound. cbn [andb].
  exists found, (Dict.keys (CourseManager.courses m)).
  split; [reflexivity | split; [reflexivity|]].
  unfold listing, Dict.values, Dict.keys in *.
  rewrite nth_error_map in Hfound. rewrite nth_error_map.
  destruct (nth_error (CourseManager.courses m) (Z.to_nat i)) as [[k c0]|] eqn:E;
    [|discriminate].
  cbn in Hfound |- *. injection Hfound as ->.
  f_equal. symmetry. apply (Hnamed k found). now apply nth_error_In in E.
Qed.

End MoreManager.

(** A manager that holds the Algorithms course. *)
Definition one_course_manager : CourseManager.t Q :=
  CourseManager.mk [("Algorithms", algorithms)]%string None.

Lemma index_matches_listing_witness :
  exists found names,
    result (CourseManager.get_course_by_index 0 one_course_manager)
    = inr (Some found)
    /\ result (CourseManager.list_courses one_course_manager) = inr names
    /\ nth_error names (Z.to_nat 0) = Some (Course.name found).
Proof.
  assert (H : named_courses one_course_manager).
  { intros k c [Heq | []]. injection Heq as <- <-. reflexivity. }
  apply (proj2 (index_matches_listing one_course_manager algorithms 0 H)).
  vm_compute. split; [discriminate | reflexivity].
Defined.

(** ** The data file *)

Section Persistence.
Context {num : Type} {N : PyNum num}.
Implicit Types (m : CourseManager.t num) (c : Course.t num).

(** X15. Saving and loading is a round trip: a manager whose dictionaries
    have every key once writes a file from which a new manager loads the
    same courses with the same sections, weights and grades, in the same
    order; saving leaves the courses as they are. *)
Theorem save_then_load m :
  manager_wf m ->
  exists file,
    CourseManager.save_data m
    = Outcome (inr tt) (CourseManager.mk (CourseManager.courses m) (Some file)) []
    /\ CourseManager.init (Some file)
       = Outcome (inr tt)
           (CourseManager.mk (CourseManager.courses m) (Some file)) [].
Proof.
  intros Hm. exists (manager_doc m). split; [now apply save_data_doc|].
  pose proof (load_after_save m Hm) as H.
  now rewrite (save_data_doc m Hm) in H.
Qed.

Lemma manager_wf_assign m c :
  manager_wf m -> Dict.wf (Course.sections c) ->
  manager_wf
    (CourseManager.mk
       (Dict.setitem (Course.name c) c (CourseManager.courses m))
       (CourseManager.data_file m)).
Proof.
  intros [Hwf Hsec] Hc. split; cbn [CourseManager.courses].
  - now apply wf_setitem.
  - intros k c0 Hin. apply In_setitem in Hin. destruct Hin as [Heq | Hin].
    + injection Heq as _ ->. exact Hc.
    + now apply (Hsec k).
Qed.

(** X16. [add_course] writes through: after it, the data file holds the
    courses including the new one, and a manager started on that file has
    exactly the courses of the manager that wrote it. *)
Theorem add_course_persists m c :
  manager_wf m -> Dict.wf (Course.sections c) ->
  result
    (CourseManager.init
       (CourseManager.data_file (final (CourseManager.add_course c m))))
  = inr tt
  /\ CourseManager.courses
       (final
          (CourseManager.init
             (CourseManager.data_file (final (CourseManager.add_course c m)))))
     = CourseManager.courses (final (CourseManager.add_course c m))
  /\ CourseManager.courses (final (CourseManager.add_course c m))
     = Dict.setitem (Course.name c) c (CourseManager.courses m).
Proof.
  intros Hm Hc.
  set (m1 := CourseManager.mk
               (Dict.setitem (Course.name c) c (CourseManager.courses m))
               (CourseManager.data_file m)).
  assert (Hadd : CourseManager.add_course c m = CourseManager.save_data m1).
  { unfold CourseManager.add_course. now rewrite (bind_returns _ _ m m1 tt). }
  rewrite Hadd.
  pose proof (load_after_save m1 (manager_wf_assign m c Hm Hc)) as Hload.
  rewrite Hload. cbn [result final CourseManager.courses].
  rewrite (save_data_doc m1 (manager_wf_assign m c Hm Hc)).
  cbn [final CourseManager.courses]. repeat split.
Qed.

Lemma load_entries_then (d : Dict.t (Course.t num))
  (rest : list (string * value num)) m :
  (forall k c, In (k, c) d -> Dict.wf (Course.sections c)) ->
  for_each
    (fun (_ : unit) '(name, course_data) =>
       course <- Course.from_dict course_data ;;
       CourseManager.on_courses (Dict.assign name course))
    (map (fun kv => (fst kv, course_doc (snd kv))) d ++ rest) tt m
  = for_each
      (fun (_ : unit) '(name, course_data) =>
         course <- Course.from_dict course_data ;;
         CourseManager.on_courses (Dict.assign name course))
      rest tt
      (CourseManager.mk
         (fold_left (fun a kv => Dict.setitem (fst kv) (snd kv) a) d
            (CourseManager.courses m))
         (CourseManager.data_file m)).
Proof.
  revert m. induction d as [|[k c] d IH]; intros m Hsec; simpl.
  - now destruct m.
  - rewrite (bind_returns _ _ m
               (CourseManager.mk (Dict.setitem k c (CourseManager.courses m))
                  (CourseManager.data_file m)) tt).
    + rewrite IH by (intros; eapply Hsec; right; eassumption). reflexivity.
    + rewrite (bind_returns _ _ m m c); [reflexivity|].
      apply course_from_dict_doc. eapply Hsec. now left.
Qed.

Lemma course_from_dict_no_name {St} (d : Dict.t (value num)) (st : St) :
  Dict.lookup "sections"%string d = None ->
  Dict.lookup "name"%string d = None ->
  Course.from_dict (VDict d) st = Outcome (inl (KeyError "name")) st [].
Proof.
  intros Hs Hn.
  unfold Course.from_dict, Value.get_default, Dict.get_default, Value.subscript,
    Dict.getitem.
  rewrite Hs, Hn. reflexivity.
Qed.

(** X17. Loading fails hard on a course record that has no name: the load
    ends with [KeyError] for [name], the records behind the bad one are
    not read, and the courses read before it are in the manager. A file
    that is no dictionary ends the load at once and leaves no course. *)
Theorem load_stops_at_bad_record (good : Dict.t (Course.t num))
  (k : string) (bad : Dict.t (value num)) (rest : list (string * value num))
  (l : list (value num)) :
  Dict.wf good ->
  (forall k c, In (k, c) good -> Dict.wf (Course.sections c)) ->
  Dict.lookup "sections"%string bad = None ->
  Dict.lookup "name"%string bad = None ->
  (forall file,
      file = VDict (map (fun kv => (fst kv, course_doc (snd kv))) good
                    ++ (k, VDict bad) :: rest) ->
      CourseManager.init (Some file)
      = Outcome (inl (KeyError "name")) (CourseManager.mk good (Some file)) [])
  /\ CourseManager.init (Some (VList l))
     = Outcome (inl AttributeError)
         (CourseManager.mk Dict.empty (Some (VList l))) [].
Proof.
  intros Hwf Hsec Hs Hn. split; [|reflexivity].
  intros file ->. unfold CourseManager.init, CourseManager.load_data.
  match goal with
  | |- context [CourseManager.mk Dict.empty (Some ?f)] =>
      set (m0 := CourseManager.mk Dict.empty (Some f))
  end.
  rewrite (bind_returns _ _ m0 m0 m0) by reflexivity.
  cbn [m0 CourseManager.data_file]. fold m0.
  rewrite (bind_returns _ _ m0 m0
             (map (fun kv => (fst kv, course_doc (snd kv))) good
              ++ (k, VDict bad) :: rest)) by reflexivity.
  rewrite (load_entries_then good _ m0 Hsec).
  cbn [m0 CourseManager.courses CourseManager.data_file].
  rewrite (fold_setitem (fun _ c => c)) by exact Hwf.
  simpl for_each.
  replace (map (fun kv : string * Course.t num => (fst kv, snd kv)) good) with good
    by (rewrite <- (map_id good) at 1; apply map_ext; now intros [? ?]).
  apply bind_raises. apply bind_raises. now apply course_from_dict_no_name.
Qed.

End Persistence.

(** ** A new section without grades *)

(** In exact arithmetic a section added under a new name leaves the
    current grade of the course as it was, and the overall grade equal to
    what it was. *)
Theorem new_section_keeps_grades (c : Course.t Q) (name : string) (weight : Q) :
  Dict.lookup name (Course.sections c) = None ->
  result (Course.calculate_current_grade
            (final (Course.add_section name weight c)))
  = result (Course.calculate_current_grade c)
  /\ exists o o',
       result (Course.calculate_overall_grade c) = inr o
       /\ result (Course.calculate_overall_grade
                    (final (Course.add_section name weight c))) = inr o'
       /\ o' == o.
Proof.
  intros Hnew. rewrite (add_section_new c name weight Hnew). cbn [final].
  rewrite !calculate_current_grade_run, !calculate_overall_grade_run.
  cbn [result]. split.
  - f_equal. unfold current_of, totals_of, Dict.values.
    cbn [Course.sections]. rewrite map_app, fold_left_app. reflexivity.
  - eexists _, _. split; [reflexivity | split; [reflexivity|]].
    unfold overall_of, Dict.values. cbn [Course.sections].
    rewrite map_app, fold_left_app. simpl. unfold share_of. cbn. ring.
Qed.

Lemma new_section_keeps_grades_witness :
  result (Course.calculate_current_grade
            (final (Course.add_section "Quiz" 10 (algorithms (num := Q)))))
  = result (Course.calculate_current_grade algorithms)
  /\ exists o o',
       result (Course.calculate_overall_grade (algorithms (num := Q))) = inr o
       /\ result (Course.calculate_overall_grade
                    (final (Course.add_section "Quiz" 10 algorithms))) = inr o'
       /\ o' == o.
Proof.
  apply (new_section_keeps_grades algorithms "Quiz" 10). reflexivity.
Defined.

(** ** Records with fields missing *)

(** X20. [from_dict] names the field a record lacks: a section record
    without [name] raises [KeyError] for it, one with a name and without
    [weight] raises [KeyError] for [weight], and a course record without
    [sections] and without [name] raises [KeyError] for [name]; a course
    record with a name and without [sections] gives a course with no
    section; what is no record at all raises [TypeError]. *)
Theorem from_dict_missing_fields {num} {St} (st : St) (d : Dict.t (value num)) :
  (Dict.lookup "name"%string d = None ->
   Section_.from_dict (VDict d) st = Outcome (inl (KeyError "name")) st [])
  /\ (forall v, Dict.lookup "name"%string d = Some v ->
        Dict.lookup "weight"%string d = None ->
        Section_.from_dict (VDict d) st = Outcome (inl (KeyError "weight")) st [])
  /\ (Dict.lookup "sections"%string d = None ->
      Dict.lookup "name"%string d = None ->
      Course.from_dict (VDict d) st = Outcome (inl (KeyError "name")) st [])
  /\ (forall n, Dict.lookup "sections"%string d = None ->
        Dict.lookup "name"%string d = Some (VStr n) ->
        Course.from_dict (VDict d) st = Outcome (inr (Course.mk n [])) st [])
  /\ (forall x : num,
        Section_.from_dict (VNum x) st = Outcome (inl TypeError) st []).
Proof.
  split; [|split; [|split; [|split]]].
  - intros Hn. unfold Section_.from_dict, Value.subscript, Dict.getitem.
    now rewrite Hn.
  - intros v Hn Hw. unfold Section_.from_dict, Value.subscript, Dict.getitem.
    now rewrite Hn, Hw.
  - intros Hs Hn.
    unfold Course.from_dict, Value.get_default, Dict.get_default, Value.subscript,
      Dict.getitem.
    now rewrite Hs, Hn.
  - intros n Hs Hn.
    unfold Course.from_dict, Value.get_default, Dict.get_default, Value.subscript,
      Dict.getitem.
    now rewrite Hs, Hn.
  - reflexivity.
Qed.

(** ** The further results at work on the scenario *)

Lemma update_section_weight_replaces_witness :
  Dict.lookup "HW"
    (Course.sections
       (final (Course.update_section_weight "HW" 10 (algorithms (num := Q)))))
  = Some (Section_.mk "HW" 10 [80; 90]).
Proof.
  refine (proj1 (proj2 (proj2
            (update_section_weight_replaces algorithms "HW" 10
               (Section_.mk "HW" 40 [80; 90]) _)))).
  reflexivity.
Defined.

Lemma add_section_existing_is_update_witness :
  final (Course.add_section "HW" 10 (algorithms (num := Q)))
  = final (Course.update_section_weight "HW" 10 algorithms).
Proof.
  refine (proj1 (add_section_existing_is_update algorithms "HW" 10
                   (Section_.mk "HW" 40 [80; 90]) _)).
  reflexivity.
Defined.

Lemma sound_new_course {num} (name : string) :
  sound (Course.init (num := num) name None).
Proof.
  split; [constructor | intros k s []].
Defined.

Lemma edits_keep_sections_witness :
  exists c' o,
    apply_edits
      [AddSection "HW" 40; AddGrade "HW" 80; UpdateWeight "HW" 30;
       AddGrade "Quiz" 70; AddSection "HW" 40; AddGrade "HW" 90]%string
      (Course.init (num := Q) "Algorithms" None)
    = Outcome (inr tt) c' o
    /\ sound c'
    /\ grows (Course.init "Algorithms" None) c'.
Proof.
  apply edits_keep_sections. apply sound_new_course.
Defined.

Lemma one_course_manager_wf : manager_wf one_course_manager.
Proof.
  split.
  - unfold Dict.wf. simpl. repeat constructor. intros [].
  - intros k c [Heq | []]. injection Heq as _ <-. apply algorithms_wf.
Defined.

Lemma save_then_load_witness :
  exists file,
    CourseManager.save_data one_course_manager
    = Outcome (inr tt)
        (CourseManager.mk (CourseManager.courses one_course_manager) (Some file))
        []
    /\ CourseManager.init (Some file)
       = Outcome (inr tt)
           (CourseManager.mk (CourseManager.courses one_course_manager)
              (Some file))
           [].
Proof.
  apply save_then_load. apply one_course_manager_wf.
Defined.

Lemma add_course_persists_witness :
  CourseManager.courses
    (final
       (CourseManager.init
          (CourseManager.data_file
             (final (CourseManager.add_course (algorithms (num := Q))
                       one_course_manager)))))
  = CourseManager.courses
      (final (CourseManager.add_course algorithms one_course_manager)).
Proof.
  apply (proj1 (proj2 (add_course_persists one_course_manager algorithms
                         one_course_manager_wf algorithms_wf))).
Defined.

Lemma load_stops_at_bad_record_witness :
  CourseManager.init
    (Some (VDict [("Algorithms", course_doc (algorithms (num := Q)));
                  ("Broken", VDict []);
                  ("Later", course_doc algorithms)]%string))
  = Outcome (inl (KeyError "name"))
      (CourseManager.mk [("Algorithms", algorithms)]%string
         (Some (VDict [("Algorithms", course_doc algorithms);
                       ("Broken", VDict []);
                       ("Later", course_doc algorithms)]%string)))
      [].
Proof.
  apply (proj1 (load_stops_at_bad_record
                  (CourseManager.courses one_course_manager) "Broken" []
                  [("Later", course_doc algorithms)]%string []
                  (proj1 one_course_manager_wf) (proj2 one_course_manager_wf)
                  eq_refl eq_refl)).
  reflexivity.
Defined.

(** * Binary64 as the program runs it *)

(** ** Rounding an integer to binary64 *)

Lemma digits_shift_left (m k : positive) :
  digits2_pos (Pos.iter xO m k) = (digits2_pos m + k)%positive.
Proof.
  induction k as [|k IH] using Pos.peano_ind.
  - simpl. lia.
  - rewrite Pos.iter_succ. simpl. rewrite IH. lia.
Qed.

Lemma shr_1_digits (s : shr_record) :
  Zdigits2 (shr_m (shr_1 s)) = Z.max 0 (Zdigits2 (shr_m s) - 1).
Proof.
  destruct s as [m r t]. destruct m as [|p|p]; [reflexivity| |];
    destruct p; cbn [shr_1 shr_m Zdigits2 digits2_pos]; lia.
Qed.

Lemma shr_digits (k : positive) (s : shr_record) :
  Zdigits2 (shr_m (iter_pos shr_1 k s))
  = Z.max 0 (Zdigits2 (shr_m s) - Z.pos k).
Proof.
  revert s. induction k as [k IH|k IH|]; intros s; simpl.
  - rewrite !IH, shr_1_digits. lia.
  - rewrite !IH. lia.
  - apply shr_1_digits.
Qed.

Lemma shr_1_nonneg (s : shr_record) :
  (0 <= shr_m s)%Z -> (0 <= shr_m (shr_1 s))%Z.
Proof.
  destruct s as [m r t]. destruct m as [|p|p]; simpl; [lia| |lia].
  destruct p; simpl; lia.
Qed.

Lemma shr_nonneg (k : positive) (s : shr_record) :
  (0 <= shr_m s)%Z -> (0 <= shr_m (iter_pos shr_1 k s))%Z.
Proof.
  revert s. induction k as [k IH|k IH|]; intros s H; simpl.
  - apply IH, IH. now apply shr_1_nonneg.
  - now apply IH, IH.
  - now apply shr_1_nonneg.
Qed.

Lemma positive_of_digits (z d : Z) :
  (0 <= z)%Z -> Zdigits2 z = d -> (0 < d)%Z ->
  exists q, z = Z.pos q /\ Z.pos (digits2_pos q) = d.
Proof.
  intros Hz Hd Hpos. destruct z as [|q|q]; simpl in Hd; [lia| |lia].
  now exists q.
Qed.

Lemma digits_succ (q : positive) :
  digits2_pos (Pos.succ q) = digits2_pos q
  \/ digits2_pos (Pos.succ q) = Pos.succ (digits2_pos q).
Proof.
  induction q as [q IH|q IH|]; simpl.
  - destruct IH as [-> | ->]; [left | right]; reflexivity.
  - now left.
  - now right.
Qed.

Lemma round_nearest_even_digits (q : positive) (l : location) :
  exists q', round_nearest_even (Z.pos q) l = Z.pos q'
             /\ (digits2_pos q' = digits2_pos q
                 \/ digits2_pos q' = Pos.succ (digits2_pos q)).
Proof.
  assert (Hup : exists q', (Z.pos q + 1)%Z = Z.pos q'
                           /\ (digits2_pos q' = digits2_pos q
                               \/ digits2_pos q' = Pos.succ (digits2_pos q))).
  { exists (Pos.succ q). split; [lia | apply digits_succ]. }
  destruct l as [|[ | | ]]; unfold round_nearest_even;
    try (exists q; split; [reflexivity | now left]); try exact Hup.
  destruct (Z.even (Z.pos q)); [exists q; split; [reflexivity | now left]|].
  exact Hup.
Qed.

Lemma shr_fexp_none (z e : Z) (l : location) :
  (fexp prec emax (Zdigits2 z + e) - e <= 0)%Z ->
  shr_fexp prec emax z e l = (shr_record_of_loc z l, e).
Proof.
  intros H. unfold shr_fexp, shr.
  destruct (fexp prec emax (Zdigits2 z + e) - e)%Z; [reflexivity | lia | reflexivity].
Qed.

Lemma shr_fexp_some (z e : Z) (l : location) (k : positive) :
  (fexp prec emax (Zdigits2 z + e) - e)%Z = Z.pos k ->
  shr_fexp prec emax z e l
  = (iter_pos shr_1 k (shr_record_of_loc z l), (e + Z.pos k)%Z).
Proof. intros H. unfold shr_fexp, shr. now rewrite H. Qed.

(** A mantissa that sits at its exponent is taken as it is. *)
Lemma binary_round_aux_aligned (sx : bool) (q : positive) (e : Z) :
  fexp prec emax (Z.pos (digits2_pos q) + e) = e ->
  binary_round_aux prec emax sx (Z.pos q) e loc_Exact
  = if (e <=? emax - prec)%Z then S754_finite sx q e else S754_infinity sx.
Proof.
  intros H. unfold binary_round_aux.
  rewrite shr_fexp_none by (simpl Zdigits2; lia).
  cbn [shr_record_of_loc shr_m loc_of_shr_record round_nearest_even].
  rewrite shr_fexp_none by (simpl Zdigits2; lia).
  reflexivity.
Qed.

Lemma bounded_aligned (q : positive) (e : Z) :
  fexp prec emax (Z.pos (digits2_pos q) + e) = e ->
  (e <=? emax - prec)%Z = true ->
  bounded prec emax q e = true.
Proof.
  intros H He. unfold bounded, canonical_mantissa. rewrite H, He.
  now rewrite Z.eqb_refl.
Qed.

(** What rounding a positive mantissa gives: a valid finite number of the
    same sign, or the infinity of that sign; never zero, never NaN. *)
Definition rounded (sx : bool) (x : spec_float) : Prop :=
  (exists m e, x = S754_finite sx m e /\ bounded prec emax m e = true)
  \/ x = S754_infinity sx.

Lemma rounded_aligned (sx : bool) (q : positive) (e : Z) :
  fexp prec emax (Z.pos (digits2_pos q) + e) = e ->
  rounded sx (binary_round_aux prec emax sx (Z.pos q) e loc_Exact).
Proof.
  intros H. rewrite (binary_round_aux_aligned sx q e H).
  destruct (e <=? emax - prec)%Z eqn:He; [left | now right].
  exists q, e. split; [reflexivity | now apply bounded_aligned].
Qed.

Lemma rounded_shifted (sx : bool) (q : positive) (e : Z) (k : positive) :
  (SpecFloat.emin prec emax <= e)%Z ->
  (fexp prec emax (Z.pos (digits2_pos q) + e) - e)%Z = Z.pos k ->
  rounded sx (binary_round_aux prec emax sx (Z.pos q) e loc_Exact).
Proof.
  intros He Hk. unfold binary_round_aux.
  rewrite (shr_fexp_some _ _ _ k) by exact Hk.
  set (r1 := iter_pos shr_1 k (shr_record_of_loc (Z.pos q) loc_Exact)).
  assert (Hd1 : Zdigits2 (shr_m r1) = 53%Z).
  { unfold r1. rewrite shr_digits. cbn [shr_record_of_loc shr_m Zdigits2].
    unfold fexp, SpecFloat.emin, prec, emax in *. lia. }
  assert (Hn1 : (0 <= shr_m r1)%Z)
    by (unfold r1; apply shr_nonneg; cbn; lia).
  destruct (positive_of_digits _ _ Hn1 Hd1 eq_refl) as (q1 & Hq1 & Hdq1).
  rewrite Hq1.
  destruct (round_nearest_even_digits q1 (loc_of_shr_record r1))
    as (q2 & Hq2 & Hdq2).
  rewrite Hq2.
  assert (He1 : (SpecFloat.emin prec emax < e + Z.pos k)%Z) by lia.
  destruct Hdq2 as [Hdq2 | Hdq2].
  - rewrite shr_fexp_none
      by (simpl Zdigits2; rewrite Hdq2;
          unfold fexp, SpecFloat.emin, prec, emax in *; lia).
    cbn [shr_record_of_loc shr_m].
    destruct (e + Z.pos k <=? emax - prec)%Z eqn:Hle; [left | now right].
    exists q2, (e + Z.pos k)%Z. split; [reflexivity|].
    apply bounded_aligned; [|exact Hle].
    rewrite Hdq2. unfold fexp, SpecFloat.emin, prec, emax in *. lia.
  - rewrite (shr_fexp_some _ _ _ 1)
      by (simpl Zdigits2; rewrite Hdq2;
          unfold fexp, SpecFloat.emin, prec, emax in *; lia).
    set (r2 := iter_pos shr_1 1 (shr_record_of_loc (Z.pos q2) loc_Exact)).
    assert (Hd2 : Zdigits2 (shr_m r2) = 53%Z).
    { unfold r2. rewrite shr_digits. cbn [shr_record_of_loc shr_m Zdigits2].
      rewrite Hdq2. lia. }
    assert (Hn2 : (0 <= shr_m r2)%Z)
      by (unfold r2; apply shr_nonneg; cbn; lia).
    destruct (positive_of_digits _ _ Hn2 Hd2 eq_refl) as (q3 & Hq3 & Hdq3).
    rewrite Hq3.
    destruct (e + Z.pos k + 1 <=? emax - prec)%Z eqn:Hle; [left | now right].
    exists q3, (e + Z.pos k + 1)%Z. split; [reflexivity|].
    apply bounded_aligned; [|exact Hle].
    rewrite Hdq3. unfold fexp, SpecFloat.emin, prec, emax in *. lia.
Qed.

Lemma binary_round_rounded (sx : bool) (m : positive) (e : Z) :
  (SpecFloat.emin prec emax <= e)%Z ->
  rounded sx (binary_round prec emax sx m e).
Proof.
  intros He. unfold binary_round, shl_align.
  destruct (fexp prec emax (Z.pos (digits2_pos m) + e) - e)%Z as [|k|k] eqn:Hk.
  - apply rounded_aligned. lia.
  - now apply rounded_shifted with k.
  - apply rounded_aligned. rewrite digits_shift_left.
    unfold fexp, SpecFloat.emin, prec, emax in *. lia.
Qed.

(** ** The numbers the program divides by *)

(** [len(l)] of a non-empty list and the literal 100 are positive ints;
    as numbers they are not [== 0]. *)
Definition converts_lengths (num : Type) {N : PyNum num} : Prop :=
  forall p : positive, neqb (of_int (Z.pos p)) (of_int 0) = false.

Lemma exact_converts_lengths : converts_lengths Q.
Proof. exact pos_not_zero. Qed.

Lemma Prim2SF_rounded (sx : bool) (x : spec_float) :
  rounded sx x -> Prim2SF (SF2Prim x) = x.
Proof.
  intros [(m & e & -> & Hb) | ->].
  - now apply Prim2SF_SF2Prim.
  - now apply Prim2SF_SF2Prim.
Qed.

Lemma binary64_converts_lengths : converts_lengths float.
Proof.
  intros p.
  change (PrimFloat.eqb (SF2Prim (binary_round prec emax false p 0)) 0 = false).
  rewrite FloatAxioms.eqb_spec.
  pose proof (binary_round_rounded false p 0 ltac:(vm_compute; discriminate)) as H.
  rewrite (Prim2SF_rounded false _ H).
  change (Prim2SF 0) with (S754_zero false).
  destruct H as [(m & e & -> & _) | ->]; reflexivity.
Qed.

(** ** Adding zero, and never reaching minus zero *)

Lemma valid_exponent (s : bool) (m : positive) (e : Z) (x : float) :
  Prim2SF x = S754_finite s m e -> (SpecFloat.emin prec emax <= e)%Z.
Proof.
  intros H. pose proof (Prim2SF_valid x) as Hv. rewrite H in Hv.
  unfold valid_binary, bounded, canonical_mantissa in Hv.
  apply andb_true_iff in Hv. destruct Hv as [Hc _]. apply Z.eqb_eq in Hc.
  unfold fexp in Hc. lia.
Qed.



(** ** The grade computations in every number type *)

(** The builtin [sum] belongs to the interpreter, not to the program: it
    adds floats from the left, and from CPython 3.12 on it also carries a
    correction term for the rounding errors, which can change the last
    digits of a sum. The methods below are the three computations of the
    program with [sum] left open: [total] stands for whatever way of
    adding up the interpreter has. With [py_sum] for it they are the
    methods above. *)
Definition average_by {num} {N : PyNum num} (total : list num -> num)
  : Py num (Section_.t num) num :=
  self <- get ;;
  if truthy (Section_.grades self)
  then truediv (total (Section_.grades self)) (of_int (len (Section_.grades self)))
  else ret (of_int 0).

Definition calculate_overall_grade_by {num} {N : PyNum num}
  (total : list num -> num) : Py num (Course.t num) num :=
  Course.on_sections
    (Dict.for_values
       (fun overall =>
          avg <- average_by total ;;
          section <- get ;;
          share <- truediv (Section_.weight section) (of_int 100) ;;
          ret (nadd overall (nmul avg share)))
       (of_int 0)).

Definition calculate_current_grade_by {num} {N : PyNum num}
  (total : list num -> num) : Py num (Course.t num) (option num) :=
  ' (total_weight, total_score) <-
    Course.on_sections
      (Dict.for_values
         (fun '(total_weight, total_score) =>
            section <- get ;;
            if truthy (Section_.grades section)
            then avg <- average_by total ;;
                 section <- get ;;
                 let total_score :=
                   nadd total_score (nmul avg (Section_.weight section)) in
                 let total_weight :=
                   nadd total_weight (Section_.weight section) in
                 ret (total_weight, total_score)
            else ret (total_weight, total_score))
         (of_int 0, of_int 0)) ;;
  if neqb total_weight (of_int 0)
  then ret None
  else grade <- truediv total_score total_weight ;; ret (Some grade).

Lemma methods_by_py_sum {num} {N : PyNum num} :
  Section_.average (num := num) = average_by py_sum
  /\ Course.calculate_overall_grade (num := num) = calculate_overall_grade_by py_sum
  /\ Course.calculate_current_grade (num := num) = calculate_current_grade_by py_sum.
Proof. repeat split. Qed.

Section AnyNumber.
Context {num : Type} {N : PyNum num}.
Hypothesis lengths : converts_lengths num.
Variable total : list num -> num.
Implicit Types (s : Section_.t num) (c : Course.t num).

(** The numbers the methods return, as the program adds them up: from
    0, left to right, in the order of the sections. *)
Definition average_value s : num :=
  match Section_.grades s with
  | [] => of_int 0
  | _ :: _ => nquot (total (Section_.grades s)) (of_int (len (Section_.grades s)))
  end.



Definition total_weight (l : list (Section_.t num)) : num :=
  fold_left (fun total s => nadd total (Section_.weight s)) l (of_int 0).

Definition total_score (l : list (Section_.t num)) : num :=
  fold_left
    (fun total s => nadd total (nmul (average_value s) (Section_.weight s)))
    l (of_int 0).

Definition current_value c : option num :=
  if neqb (total_weight (graded c)) (of_int 0)
  then None
  else Some (nquot (total_score (graded c)) (total_weight (graded c))).

Lemma average_by_returns s :
  average_by total s = Outcome (inr (average_value s)) s [].
Proof.
  destruct s as [n w [|g gs]]; [reflexivity|].
  unfold average_by, average_value, bind, get.
  cbn [result final printed Section_.grades truthy].
  unfold truediv. rewrite len_cons, lengths. reflexivity.
Qed.


(** The loop of [calculate_current_grade] on the pair of its totals. *)
Definition current_step (acc : num * num) s : num * num :=
  if truthy (Section_.grades s)
  then (nadd (fst acc) (Section_.weight s),
        nadd (snd acc) (nmul (average_value s) (Section_.weight s)))
  else acc.

Lemma current_step_graded (l : list (Section_.t num)) (acc : num * num) :
  fold_left current_step l acc
  = (fold_left (fun total s => nadd total (Section_.weight s))
       (filter (fun s => truthy (Section_.grades s)) l) (fst acc),
     fold_left
       (fun total s => nadd total (nmul (average_value s) (Section_.weight s)))
       (filter (fun s => truthy (Section_.grades s)) l) (snd acc)).
Proof.
  revert acc. induction l as [|s l IH]; intros [tw ts]; simpl; [reflexivity|].
  rewrite IH. unfold current_step. cbn [fst snd].
  destruct (truthy (Section_.grades s)); reflexivity.
Qed.

Lemma current_by_returns c :
  calculate_current_grade_by total c = Outcome (inr (current_value c)) c [].
Proof.
  unfold calculate_current_grade_by, Course.on_sections, within, bind at 1.
  rewrite (for_values_pure _ current_step).
  - cbn [result final printed]. rewrite current_step_graded. cbn [fst snd].
    fold (graded c). fold (total_weight (graded c)). fold (total_score (graded c)).
    unfold current_value, bind, truediv.
    destruct (neqb (total_weight (graded c)) (of_int 0));
      destruct c; reflexivity.
  - intros [tw ts] v. unfold bind, get, current_step.
    cbn [result final printed fst snd].
    destruct (truthy (Section_.grades v)); [|reflexivity].
    rewrite average_by_returns. reflexivity.
Qed.

End AnyNumber.

(** ** Sections without grades in binary64 *)




(** ** Weights that are not negative *)

(** [0 <= w]: a number, not NaN, and not below zero. *)
Lemma float_nonneg_shape (w : float) :
  PrimFloat.leb 0 w = true ->
  (exists s, Prim2SF w = S754_zero s)
  \/ (exists m e, Prim2SF w = S754_finite false m e)
  \/ Prim2SF w = S754_infinity false.
Proof.
  rewrite FloatAxioms.leb_spec. change (Prim2SF 0) with (S754_zero false).
  destruct (Prim2SF w) as [s|s| |s m e]; intros H.
  - left. now exists s.
  - destruct s; [discriminate|]. now right; right.
  - discriminate.
  - destruct s; [discriminate|]. right; left. now exists m, e.
Qed.

Lemma float_nonneg_of_shape (w : float) :
  (exists s, Prim2SF w = S754_zero s)
  \/ (exists m e, Prim2SF w = S754_finite false m e)
  \/ Prim2SF w = S754_infinity false ->
  PrimFloat.leb 0 w = true.
Proof.
  rewrite FloatAxioms.leb_spec. change (Prim2SF 0) with (S754_zero false).
  intros [[s ->] | [(m & e & ->) | ->]]; reflexivity.
Qed.

Lemma float_zero_shape (w : float) :
  PrimFloat.eqb w 0 = true <-> exists s, Prim2SF w = S754_zero s.
Proof.
  rewrite FloatAxioms.eqb_spec. change (Prim2SF 0) with (S754_zero false).
  destruct (Prim2SF w) as [s|s| |s m e]; split;
    try discriminate; try (intros [s' H]; discriminate).
  - intros _. now exists s.
  - reflexivity.
  - destruct s; discriminate.
  - destruct s; discriminate.
Qed.

(** The sum of two weights that are not negative is not negative, and is
    [== 0] only when both are. *)
Lemma float_add_nonneg (x y : float) :
  PrimFloat.leb 0 x = true -> PrimFloat.leb 0 y = true ->
  PrimFloat.leb 0 (PrimFloat.add x y) = true
  /\ (PrimFloat.eqb (PrimFloat.add x y) 0 = true
      <-> PrimFloat.eqb x 0 = true /\ PrimFloat.eqb y 0 = true).
Proof.
  intros Hx Hy.
  assert (Hshape :
    (exists s, Prim2SF (PrimFloat.add x y) = S754_zero s)
    /\ (exists sx, Prim2SF x = S754_zero sx) /\ (exists sy, Prim2SF y = S754_zero sy)
    \/ ((exists m e, Prim2SF (PrimFloat.add x y) = S754_finite false m e)
        \/ Prim2SF (PrimFloat.add x y) = S754_infinity false)
       /\ ((exists m e, Prim2SF x = S754_finite false m e)
           \/ Prim2SF x = S754_infinity false
           \/ (exists m e, Prim2SF y = S754_finite false m e)
           \/ Prim2SF y = S754_infinity false)).
  { pose proof (float_nonneg_shape x Hx) as Sx.
    pose proof (float_nonneg_shape y Hy) as Sy.
    rewrite FloatAxioms.add_spec. unfold SF64add.
    destruct Sx as [[sx Ex] | [(mx & ex & Ex) | Ex]];
      destruct Sy as [[sy Ey] | [(my & ey & Ey) | Ey]].
    - left. rewrite Ex, Ey. split; [|split; eauto].
      destruct sx, sy; simpl; eauto.
    - right. rewrite Ex, Ey. simpl. split; [left | right; right; left]; eauto.
    - right. rewrite Ex, Ey. simpl. split; [right | right; right; right]; eauto.
    - right. rewrite Ex, Ey. simpl. split; [left | left]; eauto.
    - right. split; [|left; eauto].
      pose proof (valid_exponent _ _ _ _ Ex). pose proof (valid_exponent _ _ _ _ Ey).
      rewrite Ex, Ey. unfold SFadd. cbn [cond_Zopp Z.add binary_normalize].
      destruct (binary_round_rounded false
                  (fst (shl_align mx ex (Z.min ex ey))
                   + fst (shl_align my ey (Z.min ex ey))) (Z.min ex ey)
                  ltac:(lia))
        as [(m' & e' & -> & _) | ->]; eauto.
    - right. rewrite Ex, Ey. simpl. split; [right | left]; eauto.
    - right. rewrite Ex, Ey. simpl. split; [right | right; left]; eauto.
    - right. rewrite Ex, Ey. simpl. split; [right | right; left]; eauto.
    - right. rewrite Ex, Ey. simpl. split; [right | right; left]; eauto. }
  split.
  - apply float_nonneg_of_shape. destruct Hshape as [[H _] | [[H | H] _]]; auto.
  - rewrite !float_zero_shape.
    destruct Hshape as [(H & Hx0 & Hy0) | ([H | H] & Hnz)].
    + tauto.
    + destruct H as (m & e & H). split.
      * intros [s Hs]. congruence.
      * intros [[sx Hsx] [sy Hsy]].
        destruct Hnz as [(m' & e' & Hn) | [Hn | [(m' & e' & Hn) | Hn]]]; congruence.
    + split.
      * intros [s Hs]. congruence.
      * intros [[sx Hsx] [sy Hsy]].
        destruct Hnz as [(m' & e' & Hn) | [Hn | [(m' & e' & Hn) | Hn]]]; congruence.
Qed.

Lemma total_weight_nonneg (l : list (Section_.t float)) (acc : float) :
  PrimFloat.leb 0 acc = true ->
  (forall s, In s l -> PrimFloat.leb 0 (Section_.weight s) = true) ->
  PrimFloat.leb 0
    (fold_left (fun total s => nadd total (Section_.weight s)) l acc) = true
  /\ (PrimFloat.eqb
        (fold_left (fun total s => nadd total (Section_.weight s)) l acc) 0 = true
      <-> PrimFloat.eqb acc 0 = true
          /\ forall s, In s l -> PrimFloat.eqb (Section_.weight s) 0 = true).
Proof.
  revert acc. induction l as [|s l IH]; intros acc Hacc H; cbn [fold_left].
  - split; [exact Hacc|]. split; [intros H0; split; [exact H0 | intros s []] | tauto].
  - destruct (float_add_nonneg acc (Section_.weight s) Hacc (H s (or_introl eq_refl)))
      as [Hsum Hzero].
    change (PrimFloat.add acc (Section_.weight s))
      with (nadd acc (Section_.weight s)) in Hsum, Hzero.
    destruct (IH (nadd acc (Section_.weight s)) Hsum
                (fun s' Hs' => H s' (or_intror Hs'))) as [IH1 IH2].
    split; [exact IH1|]. rewrite IH2, Hzero. split.
    + intros [[H1 H2] H3]. split; [exact H1|]. intros s' [<- | Hs']; auto.
    + intros [H1 H2]. split; [split|].
      * exact H1.
      * apply H2. now left.
      * intros s' Hs'. apply H2. now right.
Qed.

(** ** The claims on averages and grades, as the program computes them *)


(** C3. [Section.average] returns [sum(G)/len(G)] for a non-empty grade
    sequence [G] and the sentinel 0.0 for the empty one, and it changes
    nothing: the section is as before and nothing is printed. In binary64
    the quotient is the float division of the float sum by the length, for
    the sum from the left and for every other way [sum] may add up; in
    exact arithmetic it is the arithmetic mean. *)
Theorem average_is_sum_over_len :
  (forall s : Section_.t float,
      final (Section_.average s) = s
      /\ printed (Section_.average s) = []
      /\ (Section_.grades s = [] -> result (Section_.average s) = inr 0%float)
      /\ (Section_.grades s <> [] ->
          result (Section_.average s)
          = inr (PrimFloat.div (py_sum (Section_.grades s))
                   (of_int (len (Section_.grades s))))))
  /\ Section_.average (num := float) = average_by py_sum
  /\ (forall (total : list float -> float) (s : Section_.t float),
         final (average_by total s) = s
         /\ printed (average_by total s) = []
         /\ (Section_.grades s = [] -> result (average_by total s) = inr 0%float)
         /\ (Section_.grades s <> [] ->
             result (average_by total s)
             = inr (PrimFloat.div (total (Section_.grades s))
                      (of_int (len (Section_.grades s))))))
  /\ (forall s : Section_.t Q,
         final (Section_.average s) = s
         /\ printed (Section_.average s) = []
         /\ (Section_.grades s = [] -> result (Section_.average s) = inr (0 : Q))
         /\ (Section_.grades s <> [] ->
             exists q, result (Section_.average s) = inr q
                       /\ q == mean (Section_.grades s))).
Proof.
  assert (Hby : forall (total : list float -> float) (s : Section_.t float),
             final (average_by total s) = s
             /\ printed (average_by total s) = []
             /\ (Section_.grades s = [] -> result (average_by total s) = inr 0%float)
             /\ (Section_.grades s <> [] ->
                 result (average_by total s)
                 = inr (PrimFloat.div (total (Section_.grades s))
                          (of_int (len (Section_.grades s)))))).
  { intros total s. rewrite (average_by_returns binary64_converts_lengths).
    cbn [result final printed]. unfold average_value.
    split; [reflexivity | split; [reflexivity | split]].
    - now intros ->.
    - intros H. destruct (Section_.grades s); [congruence | reflexivity]. }
  split; [|split; [reflexivity | split]].
  - intros s. exact (Hby py_sum s).
  - exact Hby.
  - exact average_mean_or_sentinel.
Qed.





(** C1, amended. [Course.calculate_current_grade] returns [None] exactly
    when [total_weight], the weights of the sections with at least one
    grade added up from 0.0 in their order, is [== 0]: so when no section
    has a grade, and, the weights being not negative, exactly when every
    graded section has weight 0. Otherwise it returns
    [total_score / total_weight], where [total_score] adds up
    [section.average() * section.weight] over the same sections. The
    course is left as it was. This holds as well for every other way
    [sum] may add up the grades of a section. In exact arithmetic the
    quotient is the weighted mean of the averages. *)
Theorem current_grade_none_or_quotient :
  (forall c : Course.t float,
      final (Course.calculate_current_grade c) = c
      /\ printed (Course.calculate_current_grade c) = []
      /\ (result (Course.calculate_current_grade c) = inr None
          <-> PrimFloat.eqb (total_weight (graded c)) 0 = true)
      /\ (graded c = [] -> result (Course.calculate_current_grade c) = inr None)
      /\ (PrimFloat.eqb (total_weight (graded c)) 0 = false ->
          result (Course.calculate_current_grade c)
          = inr (Some (PrimFloat.div (total_score py_sum (graded c))
                         (total_weight (graded c)))))
      /\ ((forall s, In s (graded c) ->
             PrimFloat.leb 0 (Section_.weight s) = true) ->
          (result (Course.calculate_current_grade c) = inr None
           <-> forall s, In s (graded c) ->
                 PrimFloat.eqb (Section_.weight s) 0 = true)))
  /\ Course.calculate_current_grade (num := float)
     = calculate_current_grade_by py_sum
  /\ (forall (total : list float -> float) (c : Course.t float),
         final (calculate_current_grade_by total c) = c
         /\ printed (calculate_current_grade_by total c) = []
         /\ (result (calculate_current_grade_by total c) = inr None
             <-> PrimFloat.eqb (total_weight (graded c)) 0 = true)
         /\ (graded c = [] ->
             result (calculate_current_grade_by total c) = inr None)
         /\ (PrimFloat.eqb (total_weight (graded c)) 0 = false ->
             result (calculate_current_grade_by total c)
             = inr (Some (PrimFloat.div (total_score total (graded c))
                            (total_weight (graded c)))))
         /\ ((forall s, In s (graded c) ->
                PrimFloat.leb 0 (Section_.weight s) = true) ->
             (result (calculate_current_grade_by total c) = inr None
              <-> forall s, In s (graded c) ->
                    PrimFloat.eqb (Section_.weight s) 0 = true)))
  /\ (forall c : Course.t Q,
         final (Course.calculate_current_grade c) = c
         /\ printed (Course.calculate_current_grade c) = []
         /\ (result (Course.calculate_current_grade c) = inr None
             <-> graded_weight c == 0)
         /\ (graded c = [] -> result (Course.calculate_current_grade c) = inr None)
         /\ (~ graded_weight c == 0 ->
             exists q, result (Course.calculate_current_grade c) = inr (Some q)
                       /\ q == graded_score c / graded_weight c)).
Proof.
  assert (Hby : forall (total : list float -> float) (c : Course.t float),
             final (calculate_current_grade_by total c) = c
             /\ printed (calculate_current_grade_by total c) = []
             /\ (result (calculate_current_grade_by total c) = inr None
                 <-> PrimFloat.eqb (total_weight (graded c)) 0 = true)
             /\ (graded c = [] ->
                 result (calculate_current_grade_by total c) = inr None)
             /\ (PrimFloat.eqb (total_weight (graded c)) 0 = false ->
                 result (calculate_current_grade_by total c)
                 = inr (Some (PrimFloat.div (total_score total (graded c))
                                (total_weight (graded c)))))
             /\ ((forall s, In s (graded c) ->
                    PrimFloat.leb 0 (Section_.weight s) = true) ->
                 (result (calculate_current_grade_by total c) = inr None
                  <-> forall s, In s (graded c) ->
                        PrimFloat.eqb (Section_.weight s) 0 = true))).
  { intros total c. rewrite (current_by_returns binary64_converts_lengths).
    cbn [result final printed]. unfold current_value.
    change (@neqb float Binary64) with PrimFloat.eqb.
    change (@of_int float Binary64 0) with 0%float.
    assert (Hnone : (if PrimFloat.eqb (total_weight (graded c)) 0
                     then None
                     else Some (nquot (total_score total (graded c))
                                  (total_weight (graded c))))
                    = None
                    <-> PrimFloat.eqb (total_weight (graded c)) 0 = true)
      by (destruct (PrimFloat.eqb (total_weight (graded c)) 0); split; congruence).
    split; [reflexivity | split; [reflexivity | split; [|split; [|split]]]].
    - split; [intros [= H]; now apply Hnone | intros H; f_equal; now apply Hnone].
    - intros ->. reflexivity.
    - intros ->. reflexivity.
    - intros Hw.
      destruct (total_weight_nonneg (graded c) 0%float eq_refl Hw) as [_ Hzero].
      unfold total_weight in *.
      change (@of_int float Binary64 0) with 0%float in *.
      split.
      + intros [= H]. apply Hnone in H. now apply Hzero in H.
      + intros H. f_equal. apply Hnone. apply Hzero. split; [reflexivity | exact H]. }
  split; [|split; [reflexivity | split]].
  - intros c. exact (Hby py_sum c).
  - exact Hby.
  - exact current_grade_none_or_weighted_mean.
Qed.



(** ** Rounding at work *)

(** Two sections of weights 16.4 and 83.6, every grade 90. *)
Definition rounding_course : Course.t float :=
  Course.mk "Rounding"
    [("A", Section_.mk "A" 16.4 [90]); ("B", Section_.mk "B" 83.6 [90])]%string%float.

(** The program's numbers are the rounded ones: the current grade of
    [rounding_course] is just under 90 and its overall grade is 90, and
    three grades of 0.1 average to just over 0.1 when added from the
    left. *)
Lemma rounding_shows :
  result (Course.calculate_current_grade rounding_course)
  = inr (Some 89.99999999999999%float)
  /\ result (Course.calculate_overall_grade rounding_course) = inr 90%float
  /\ result (Section_.average (Section_.mk "S" 1 [0.1; 0.1; 0.1])%float)
     = inr 0.10000000000000002%float.
Proof. repeat split; vm_compute; reflexivity. Qed.

Lemma current_grade_none_or_quotient_witness :
  result (Course.calculate_current_grade rounding_course)
  = inr (Some (PrimFloat.div (total_score py_sum (graded rounding_course))
                 (total_weight (graded rounding_course)))).
Proof.
  apply (proj1 (proj2 (proj2 (proj2 (proj2
           (proj1 current_grade_none_or_quotient rounding_course)))))).
  vm_compute. reflexivity.
Defined.


Lemma average_is_sum_over_len_witness :
  result (Section_.average (Section_.mk "S" 1 [0.1; 0.1; 0.1])%float)
  = inr (PrimFloat.div (py_sum [0.1; 0.1; 0.1]%float) (of_int 3)).
Proof.
  apply (proj2 (proj2 (proj2
           (proj1 average_is_sum_over_len
              (Section_.mk "S" 1 [0.1; 0.1; 0.1])%float)))).
  discriminate.
Defined.
